(** * Peptide OS icon generator: a shallow embedding of
      [app-store/generate_icon.py] and the properties of its renderer and
      of its icon-set export.

    The script draws a fixed design with Pillow ([Image.new],
    [ImageDraw.Draw], [draw.line], [draw.ellipse], [Image.resize],
    [Image.save]) and writes an Xcode asset catalogue.  The embedding keeps
    the source's structure: [create_icon] is the three [for] loops over the
    two geometry tables, run against a drawing handle that mutates one
    image; the [__main__] block is a program in a state-and-exception monad
    over a small file system. *)

From Stdlib Require Import ZArith QArith Qminmax Qround String Ascii List DecimalString.
From stdpp Require Import base gmap strings list.

Close Scope Q_scope.
Local Open Scope string_scope.
Local Open Scope list_scope.
Local Open Scope Z_scope.

(** ** Python values used by the script *)

Module Py.

(** Exceptions the script can meet.  [ValueError] is Python's
    invalid-argument error; [OverflowError] is raised for an integer that
    does not fit a C [int] (its message depends on the magnitude and is
    left out), [MemoryError] when an image cannot be allocated. *)
Inductive exn :=
| ValueError (msg : string)
| OverflowError
| MemoryError
| FileNotFoundError (path : string)
| IsADirectoryError (path : string)
| NotADirectoryError (path : string)
| FileExistsError (path : string).

Inductive result (A : Type) :=
| Ok (a : A)
| Raise (e : exn).
Arguments Ok {A} a.
Arguments Raise {A} e.

Definition is_ok {A} (r : result A) : bool :=
  match r with Ok _ => true | Raise _ => false end.

(** A Python number: an [int] or a [float].  Floats are modelled by exact
    rationals; every float the script computes is a dyadic value that
    binary64 represents exactly as long as [size * 1024 < 2^53]. *)
Inductive num :=
| Int (n : Z)
| Float (q : Q).

Definition to_Q (x : num) : Q :=
  match x with Int n => inject_Z n | Float q => q end.

(** [x * y]: an [int] when both are, a [float] otherwise.  The float
    product is the exact one: that is Python's result whenever the operands
    and the exact product are binary64 values (see [is_binary64] below), as
    for every entry of the script's table; elsewhere Python rounds. *)
Definition mul (x y : num) : num :=
  match x, y with
  | Int a, Int b => Int (a * b)
  | _, _ => Float (to_Q x * to_Q y)
  end.

(** [int(q)] on a float truncates towards zero. *)
Definition trunc (q : Q) : Z := Z.quot (Qnum q) (Z.pos (Qden q)).

(** [int(x)]. *)
Definition int (x : num) : Z :=
  match x with Int n => n | Float q => trunc q end.

(** [x == y] compares numerically across [int] and [float]. *)
Definition eqb (x y : num) : bool := Qeq_bool (to_Q x) (to_Q y).

(** [x in l] for a list of numbers. *)
Definition contains (x : num) (l : list num) : bool := existsb (eqb x) l.

(** [str(n)] for an [int]. *)
Definition str_int (n : Z) : string := NilZero.string_of_int (Z.to_int n).

(** The digits after the decimal point of [r / d], for [0 <= r < d]. *)
Fixpoint frac_digits (fuel : nat) (r d : Z) : string :=
  match fuel with
  | O => EmptyString
  | S fuel' =>
      if r =? 0 then EmptyString
      else str_int (10 * r / d) +:+ frac_digits fuel' (10 * r mod d) d
  end.

(** [repr(x)] for a [float], in positional notation: the integer part, a
    point, and the exact fractional digits ([".0"] when there are none).
    This is what Python prints for a float whose exact decimal expansion
    has at most 15 significant digits and whose magnitude lies in
    [1e-4, 1e16) (or is zero), which covers [83.5] and [167.0]. *)
Definition str_float (q : Q) : string :=
  let n := Z.abs (Qnum q) in
  let d := Z.pos (Qden q) in
  let r := n mod d in
  (if Qnum q <? 0 then "-" else EmptyString)
    +:+ str_int (n / d) +:+ "."
    +:+ (if r =? 0 then "0" else frac_digits 17 r d).

(** [str(x)], as an f-string field [{x}] formats it. *)
Definition str (x : num) : string :=
  match x with Int n => str_int n | Float q => str_float q end.

End Py.
Import Py.

#[global] Instance result_ret : MRet result := @Ok.
#[global] Instance result_bind : MBind result := fun A B f r =>
  match r with Ok a => f a | Raise e => Raise e end.
#[global] Instance result_fmap : FMap result := fun A B f r =>
  match r with Ok a => Ok (f a) | Raise e => Raise e end.

(** ** Pillow: colours, images and drawing handles *)

Module ImageColor.

Definition rgb : Type := Z * Z * Z.

Definition hexval (c : ascii) : option Z :=
  let n := Z.of_nat (nat_of_ascii c) in
  if (48 <=? n) && (n <=? 57) then Some (n - 48)
  else if (97 <=? n) && (n <=? 102) then Some (n - 87)
  else if (65 <=? n) && (n <=? 70) then Some (n - 55)
  else None.

Definition hexpair (a b : ascii) : option Z :=
  h ← hexval a; l ← hexval b; Some (16 * h + l).

(** [ImageColor.getrgb] on the hexadecimal specifiers [#rgb] and
    [#rrggbb] (case-insensitive); any other string is an unknown colour
    here. *)
Definition getrgb (color : string) : option rgb :=
  match list_ascii_of_string color with
  | ["#"%char; r1; r2; g1; g2; b1; b2] =>
      r ← hexpair r1 r2; g ← hexpair g1 g2; b ← hexpair b1 b2;
      Some (r, g, b)
  | ["#"%char; r; g; b] =>
      r ← hexpair r r; g ← hexpair g g; b ← hexpair b b;
      Some (r, g, b)
  | _ => None
  end.

End ImageColor.
Import ImageColor.

(** An image: its mode, its size, and its pixel at each coordinate (only
    coordinates inside the canvas are meaningful). *)
Record Image := mkImage {
  mode : string;
  width : Z;
  height : Z;
  getpixel : Z -> Z -> rgb
}.

(** What Pillow and the machine decide and the script does not: which
    pixels a wide line or an ellipse covers, the value a resampling filter
    gives a target pixel, and whether an image of a given width and height
    can be allocated (Pillow's own limits and the memory at hand). *)
Class Rasterizer := {
  line_cover : list (Q * Q) -> Z -> Z -> Z -> bool;
  ellipse_cover : Q * Q * Q * Q -> Z -> Z -> bool;
  lanczos : Image -> Z * Z -> Z -> Z -> rgb;
  can_allocate : Z -> Z -> bool
}.

(** Whether an integer fits a C [int], as Pillow's C functions take their
    dimensions. *)
Definition fits_c_int (v : Z) : bool := (- 2 ^ 31 <=? v) && (v <? 2 ^ 31).

(** One drawing call, as issued by the script. *)
Inductive call :=
| Line (xy : list (Q * Q)) (fill : string) (line_width : Z)
| Ellipse (box : Q * Q * Q * Q) (fill : string).

(** The handle [ImageDraw.Draw(img)]: it aliases the image it draws on, and
    here also records the calls made through it, in order. *)
Record ImageDraw := mkDraw {
  im : Image;
  calls : list call
}.

Section Pillow.
Context {R : Rasterizer}.

(** [Image.new(mode, size, color)]: negative dimensions are refused (a
    zero dimension is not), then the colour is resolved, then the C core
    takes the dimensions as C [int]s and allocates the image. *)
Definition Image_new (m : string) (size : Z * Z) (color : string)
  : result Image :=
  if (size.1 <? 0) || (size.2 <? 0)
  then Raise (ValueError "Width and height must be >= 0")
  else match getrgb color with
       | None => Raise (ValueError "unknown color specifier")
       | Some c =>
           if negb (fits_c_int size.1 && fits_c_int size.2)
           then Raise OverflowError
           else if negb (can_allocate size.1 size.2) then Raise MemoryError
           else Ok (mkImage m size.1 size.2 (fun _ _ => c))
       end.

Definition Draw (img : Image) : ImageDraw := mkDraw img [].

(** A solid fill: covered pixels take the ink, the others are kept. *)
Definition paint (cover : Z -> Z -> bool) (ink : rgb) (i : Image) : Image :=
  mkImage (mode i) (width i) (height i)
          (fun x y => if cover x y then ink else getpixel i x y).

(** [draw.line(xy, fill=..., width=...)]. *)
Definition draw_line (xy : list (Q * Q)) (fill : string) (w : Z)
           (d : ImageDraw) : result ImageDraw :=
  match getrgb fill with
  | Some ink => Ok (mkDraw (paint (line_cover xy w) ink (im d))
                           (calls d ++ [Line xy fill w]))
  | None => Raise (ValueError "unknown color specifier")
  end.

(** [draw.ellipse([x0, y0, x1, y1], fill=...)]: the box must not be
    inverted. *)
Definition draw_ellipse (box : Q * Q * Q * Q) (fill : string)
           (d : ImageDraw) : result ImageDraw :=
  let '(x0, y0, x1, y1) := box in
  if negb (Qle_bool x0 x1)
  then Raise (ValueError "x1 must be greater than or equal to x0")
  else if negb (Qle_bool y0 y1)
  then Raise (ValueError "y1 must be greater than or equal to y0")
  else match getrgb fill with
       | Some ink => Ok (mkDraw (paint (ellipse_cover box) ink (im d))
                                (calls d ++ [Ellipse box fill]))
       | None => Raise (ValueError "unknown color specifier")
       end.

(** [img.resize(size, Image.Resampling.LANCZOS)]: a copy when the size is
    unchanged, otherwise a resampled image; the C core takes the target
    dimensions as C [int]s, refuses one below 1, and allocates the
    result. *)
Definition resize (i : Image) (size : Z * Z) : result Image :=
  if (width i =? size.1) && (height i =? size.2)
  then if can_allocate size.1 size.2 then Ok i else Raise MemoryError
  else if negb (fits_c_int size.1 && fits_c_int size.2)
  then Raise OverflowError
  else if (size.1 <? 1) || (size.2 <? 1)
  then Raise (ValueError "height and width must be > 0")
  else if negb (can_allocate size.1 size.2) then Raise MemoryError
  else Ok (mkImage (mode i) size.1 size.2 (lanczos i size)).

(** A [for] loop whose body acts on the drawing handle. *)
Fixpoint for_each {A} (l : list A) (body : A -> ImageDraw -> result ImageDraw)
         (d : ImageDraw) : result ImageDraw :=
  match l with
  | [] => Ok d
  | a :: l' => d' ← body a d; for_each l' body d'
  end.

End Pillow.

(** ** [create_icon] *)

Definition bonds : list ((Z * Z) * (Z * Z)) :=
  [ ((380, 360), (450, 340));
    ((574, 340), (644, 360));
    ((340, 470), (380, 540));
    ((684, 470), (644, 540));
    ((460, 640), (500, 720));
    ((564, 640), (524, 720));
    ((470, 580), (554, 580)) ].

Definition circles : list (Z * Z * Z) :=
  [ (320, 400, 80);
    (512, 320, 80);
    (704, 400, 80);
    (400, 600, 80);
    (624, 600, 80);
    (512, 780, 80) ].

Definition background : string := "#0f172a".
Definition accent : string := "#22d3a8".
Definition inner_r : Z := 32.

Section Renderer.
Context {R : Rasterizer}.

(** [x * s] for an integer coordinate and the float scale factor. *)
Definition scaled (x : Z) (s : Q) : Q := (inject_Z x * s)%Q.

Definition bond_body (s : Q) (line_width : Z) (b : (Z * Z) * (Z * Z))
  : ImageDraw -> result ImageDraw :=
  let '((x1, y1), (x2, y2)) := b in
  draw_line [(scaled x1 s, scaled y1 s); (scaled x2 s, scaled y2 s)]
            accent line_width.

Definition disk_box (s : Q) (cx cy r : Z) : Q * Q * Q * Q :=
  (scaled (cx - r) s, scaled (cy - r) s, scaled (cx + r) s, scaled (cy + r) s).

Definition outer_body (s : Q) (c : Z * Z * Z) : ImageDraw -> result ImageDraw :=
  let '(cx, cy, r) := c in
  draw_ellipse (disk_box s cx cy r) accent.

Definition inner_body (s : Q) (c : Z * Z * Z) : ImageDraw -> result ImageDraw :=
  let '(cx, cy, _) := c in
  draw_ellipse (disk_box s cx cy inner_r) background.

(** The body of [create_icon], up to its [return]: the drawing handle
    after the three loops. *)
Definition create_icon_draw (size : Z) : result ImageDraw :=
  img ← Image_new "RGB" (size, size) background;
  let draw := Draw img in
  let s := (inject_Z size / 1024)%Q in
  let line_width := trunc (24 * s)%Q in
  d1 ← for_each bonds (bond_body s line_width) draw;
  d2 ← for_each circles (outer_body s) d1;
  for_each circles (inner_body s) d2.

(** [create_icon(size)] returns the image the handle drew on. *)
Definition create_icon (size : Z) : result Image :=
  im <$> create_icon_draw size.

End Renderer.

(** ** The file system the script writes to *)

(** What a written file holds: a PNG-encoded image, or text. *)
Inductive file :=
| PNG (img : Image)
| Text (s : string).

(** The world of one run: the directories and files below the working
    directory (by relative path), the files written so far in order, and
    the lines printed. *)
Record World := mkWorld {
  dirs : gset string;
  files : gmap string file;
  writes : list (string * file);
  stdout : list string
}.

Module os.

Fixpoint split_last (p : string) : option string :=
  match p with
  | EmptyString => None
  | String c p' =>
      match split_last p' with
      | Some d => Some (String c d)
      | None => if Ascii.eqb c "/" then Some EmptyString else None
      end
  end.

(** [os.path.dirname]: what precedes the last slash, or the empty string. *)
Definition dirname (p : string) : string := default EmptyString (split_last p).

Definition isdir (p : string) (w : World) : bool := bool_decide (p ∈ dirs w).

Definition exists_ (p : string) (w : World) : bool :=
  isdir p w || bool_decide (is_Some (files w !! p)).

(** Whether a new entry may be created at [p]: its parent must be a
    directory (the working directory when [p] has no slash). *)
Definition check_parent (p : string) (w : World) : result unit :=
  let d := dirname p in
  if String.eqb d EmptyString || isdir d w then Ok tt
  else if exists_ d w then Raise (NotADirectoryError p)
  else Raise (FileNotFoundError p).

Definition mkdir (p : string) (w : World) : result World :=
  if exists_ p w then Raise (FileExistsError p)
  else _ ← check_parent p w;
       Ok (mkWorld ({[ p ]} ∪ dirs w) (files w) (writes w) (stdout w)).

(** [os.makedirs(name, exist_ok=True)] for a path without a trailing
    slash: create the missing ancestors, then the leaf, accepting a leaf
    that is already a directory. *)
Fixpoint makedirs_go (fuel : nat) (name : string) (w : World) : result World :=
  let head := dirname name in
  w1 ← (if negb (String.eqb head EmptyString) && negb (exists_ head w)
        then match fuel with
             | O => Ok w
             | S fuel' =>
                 match makedirs_go fuel' head w with
                 | Raise (FileExistsError _) => Ok w
                 | r => r
                 end
             end
        else Ok w);
  match mkdir name w1 with
  | Ok w2 => Ok w2
  | Raise e => if isdir name w1 then Ok w1 else Raise e
  end.

Definition makedirs (name : string) : World -> result World :=
  makedirs_go (String.length name) name.

End os.

(** [open(path, 'w')] followed by writing [content] and closing: the file
    is created or replaced.  Access rights and the space left on the device
    are not part of the world: a path whose parent is a directory, and
    which is not a directory itself, can be written. *)
Definition write_file (path : string) (content : file) (w : World) : result World :=
  if os.isdir path w then Raise (IsADirectoryError path)
  else _ ← os.check_parent path w;
       Ok (mkWorld (dirs w) (<[ path := content ]> (files w))
                   (writes w ++ [(path, content)]) (stdout w)).

(** [img.save(path, 'PNG')]. *)
Definition save (img : Image) (path : string) : World -> result World :=
  write_file path (PNG img).

Definition print (line : string) (w : World) : World :=
  mkWorld (dirs w) (files w) (writes w) (stdout w ++ [line]).

(** ** [json.dump(obj, f, indent=2)] *)

Module json.

#[warnings="-register-all"] Inductive value :=
| JStr (s : string)
| JInt (n : Z)
| JList (l : list value)
| JDict (l : list (string * value)).

Definition quote : ascii := "034"%char.
Definition backslash : ascii := "092"%char.

Definition hexdigit (n : N) : ascii :=
  ascii_of_N (if (n <? 10)%N then 48 + n else 87 + n).

(** One character of a JSON string, escaped as [ensure_ascii] does for
    the ASCII range. *)
Definition escape (c : ascii) : string :=
  let n := N_of_ascii c in
  if Ascii.eqb c quote then String backslash (String quote EmptyString)
  else if Ascii.eqb c backslash then String backslash (String backslash EmptyString)
  else if (n =? 10)%N then String backslash "n"
  else if (n =? 13)%N then String backslash "r"
  else if (n =? 9)%N then String backslash "t"
  else if (n =? 8)%N then String backslash "b"
  else if (n =? 12)%N then String backslash "f"
  else if (n <? 32)%N
  then String backslash
         ("u00" +:+ String (hexdigit (n / 16)) (String (hexdigit (n mod 16)) EmptyString))
  else String c EmptyString.

Fixpoint escape_all (s : string) : string :=
  match s with
  | EmptyString => EmptyString
  | String c s' => escape c +:+ escape_all s'
  end.

Definition encode_string (s : string) : string :=
  String quote (escape_all s +:+ String quote EmptyString).

Fixpoint spaces (n : nat) : string :=
  match n with O => EmptyString | S n' => String " " (spaces n') end.

(** A line break followed by the indentation of nesting depth [level]. *)
Definition newline (indent level : nat) : string :=
  String "010"%char (spaces (indent * level)).

Fixpoint join (sep : string) (l : list string) : string :=
  match l with
  | [] => EmptyString
  | [x] => x
  | x :: l' => x +:+ sep +:+ join sep l'
  end.

(** The encoder with an indent: containers put each item on its own
    line, items separated by a comma, keys followed by a colon and a
    space; empty containers stay on one line. *)
Fixpoint encode (indent level : nat) (j : value) : string :=
  match j with
  | JStr s => encode_string s
  | JInt n => str_int n
  | JList [] => "[]"
  | JList l =>
      "[" +:+ newline indent (S level)
          +:+ join ("," +:+ newline indent (S level))
                   (encode indent (S level) <$> l)
          +:+ newline indent level +:+ "]"
  | JDict [] => "{}"
  | JDict l =>
      "{" +:+ newline indent (S level)
          +:+ join ("," +:+ newline indent (S level))
                   ((fun kv => encode_string kv.1 +:+ ": "
                                 +:+ encode indent (S level) kv.2) <$> l)
          +:+ newline indent level +:+ "}"
  end.

Definition dumps (indent : nat) (j : value) : string := encode indent 0 j.

(** [d[key]] on a dictionary value. *)
Fixpoint assoc (key : string) (l : list (string * value)) : option value :=
  match l with
  | [] => None
  | (k, v) :: l' => if String.eqb k key then Some v else assoc key l'
  end.

Definition get (key : string) (j : value) : option value :=
  match j with JDict l => assoc key l | _ => None end.

End json.
Import json.

(** [json.dump(obj, f, indent=2)] inside [with open(path, 'w') as f]. *)
Definition json_dump (obj : value) (path : string) : World -> result World :=
  write_file path (Text (dumps 2 obj)).

(** ** The [__main__] block: the icon-set export *)

Definition ios_sizes : list (num * Z) :=
  [ (Int 20, 1); (Int 20, 2); (Int 20, 3);
    (Int 29, 1); (Int 29, 2); (Int 29, 3);
    (Int 40, 1); (Int 40, 2); (Int 40, 3);
    (Int 60, 2); (Int 60, 3);
    (Int 76, 1); (Int 76, 2);
    (Float (167 # 2), 2);
    (Int 1024, 1) ].

Definition primary_path : string := "app-store/icon-1024.png".
Definition iconset_dir : string := "app-store/AppIcon.appiconset".
Definition manifest_path : string := "app-store/AppIcon.appiconset/Contents.json".

(** [size = int(base_size * scale)]. *)
Definition variant_size (base_size : num) (scale : Z) : Z :=
  int (mul base_size (Int scale)).

(** [filename = f"icon-{base_size}@{scale}x.png"]. *)
Definition variant_filename (base_size : num) (scale : Z) : string :=
  "icon-" +:+ str base_size +:+ "@" +:+ str_int scale +:+ "x.png".

(** The path [f'app-store/AppIcon.appiconset/{filename}']. *)
Definition variant_path (base_size : num) (scale : Z) : string :=
  "app-store/AppIcon.appiconset/" +:+ variant_filename base_size scale.

(** The conditional expression that picks the idiom. *)
Definition idiom_of (base_size : num) : string :=
  if contains base_size [Int 20; Int 29; Int 40; Int 60] then "iphone"
  else if contains base_size [Int 76; Float (167 # 2)] then "ipad"
  else "ios-marketing".

(** The dictionary appended to [contents["images"]]. *)
Definition descriptor (base_size : num) (scale : Z) : value :=
  JDict [ ("filename", JStr (variant_filename base_size scale));
          ("idiom", JStr (idiom_of base_size));
          ("scale", JStr (str_int scale +:+ "x"));
          ("size", JStr (str base_size +:+ "x" +:+ str base_size)) ].

Section IconSetExporter.
Context {R : Rasterizer}.

(** One iteration of the loop over [ios_sizes]: the state is the list
    [contents["images"]] and the world. *)
Definition export_variant (spec : num * Z) (st : list value * World)
  : result (list value * World) :=
  let '(base_size, scale) := spec in
  let '(images, w) := st in
  let size := variant_size base_size scale in
  icon ← create_icon 1024;
  icon_resized ← resize icon (size, size);
  w' ← save icon_resized (variant_path base_size scale) w;
  Ok (images ++ [descriptor base_size scale], w').

Fixpoint export_loop (specs : list (num * Z)) (st : list value * World)
  : result (list value * World) :=
  match specs with
  | [] => Ok st
  | spec :: specs' => st' ← export_variant spec st; export_loop specs' st'
  end.

(** The dictionary [contents] once the loop has filled its list. *)
Definition contents (images : list value) : value :=
  JDict [ ("images", JList images);
          ("info", JDict [ ("author", JStr "xcode"); ("version", JInt 1) ]) ].

Definition main (w : World) : result World :=
  icon ← create_icon 1024;
  w1 ← save icon primary_path w;
  let w2 := print "Created app-store/icon-1024.png" w1 in
  w3 ← os.makedirs iconset_dir w2;
  st ← export_loop ios_sizes ([], w3);
  w5 ← json_dump (contents st.1) manifest_path st.2;
  Ok (print "Created app-store/AppIcon.appiconset/ with all iOS icon sizes" w5).

End IconSetExporter.

(** A rasteriser to run the model on: a pixel is covered when its centre
    lies in the ellipse, or within half the line width of the segment's
    bounding box, resampling takes the nearest source pixel, and an image
    of up to 2^28 pixels can be allocated.  The theorems below hold for
    every rasteriser. *)
Definition centre_in_ellipse (box : Q * Q * Q * Q) (x y : Z) : bool :=
  let '(x0, y0, x1, y1) := box in
  let dx := (inject_Z (2 * x + 1) - (x0 + x1))%Q in
  let dy := (inject_Z (2 * y + 1) - (y0 + y1))%Q in
  let a := (x1 - x0)%Q in
  let b := (y1 - y0)%Q in
  Qle_bool (dx * dx * (b * b) + dy * dy * (a * a)) (a * a * (b * b)).

Definition near_segment (xy : list (Q * Q)) (w : Z) (x y : Z) : bool :=
  match xy with
  | [(x1, y1); (x2, y2)] =>
      let h := (inject_Z (Z.max w 1) / 2)%Q in
      let px := (inject_Z (2 * x + 1) / 2)%Q in
      let py := (inject_Z (2 * y + 1) / 2)%Q in
      Qle_bool (Qmin x1 x2 - h) px && Qle_bool px (Qmax x1 x2 + h)
      && Qle_bool (Qmin y1 y2 - h) py && Qle_bool py (Qmax y1 y2 + h)
  | _ => false
  end.

Definition nearest (i : Image) (size : Z * Z) (x y : Z) : rgb :=
  getpixel i (x * width i / size.1) (y * height i / size.2).

Definition sample_rasterizer : Rasterizer :=
  {| line_cover := near_segment;
     ellipse_cover := centre_in_ellipse;
     lanczos := nearest;
     can_allocate := fun w h => w * h <=? 2 ^ 28 |}.

(** A world in which the script can run: the working directory holds an
    [app-store] directory and nothing else. *)
Definition fresh_world : World := mkWorld {[ "app-store" ]} ∅ [] [].

(** A world left by an earlier build: the icon-set directory exists and
    holds a stale manifest. *)
Definition occupied_world : World :=
  mkWorld {[ "app-store"; "app-store/AppIcon.appiconset" ]}
          {[ "app-store/AppIcon.appiconset/Contents.json" := Text "{}" ]}
          [] [ "earlier output" ].

(** ** What a run leaves behind, stated in closed form *)

Definition is_line (c : call) : bool :=
  match c with Line _ _ _ => true | Ellipse _ _ => false end.

(** An outer disk is an ellipse filled with the accent colour, an inner
    disk one filled with the background colour. *)
Definition is_outer (c : call) : bool :=
  match c with Ellipse _ fill => String.eqb fill accent | Line _ _ _ => false end.

Definition is_inner (c : call) : bool :=
  match c with Ellipse _ fill => String.eqb fill background | Line _ _ _ => false end.

Definition bond_call (s : Q) (line_width : Z) (b : (Z * Z) * (Z * Z)) : call :=
  let '((x1, y1), (x2, y2)) := b in
  Line [(scaled x1 s, scaled y1 s); (scaled x2 s, scaled y2 s)] accent line_width.

Definition outer_call (s : Q) (c : Z * Z * Z) : call :=
  let '(cx, cy, r) := c in Ellipse (disk_box s cx cy r) accent.

Definition inner_call (s : Q) (c : Z * Z * Z) : call :=
  let '(cx, cy, _) := c in Ellipse (disk_box s cx cy inner_r) background.

(** The calls [create_icon(size)] issues, in order. *)
Definition icon_calls (size : Z) : list call :=
  let s := (inject_Z size / 1024)%Q in
  (bond_call s (trunc (24 * s)%Q) <$> bonds)
    ++ (outer_call s <$> circles)
    ++ (inner_call s <$> circles).

Definition ink (fill : string) : rgb := default (0, 0, 0) (getrgb fill).

Definition round_half_up (q : Q) : Z := Qfloor (q + (1 # 2))%Q.

Section Closed.
Context {R : Rasterizer}.

(** The effect of one call on the image. *)
Definition apply_call (i : Image) (c : call) : Image :=
  match c with
  | Line xy fill w => paint (line_cover xy w) (ink fill) i
  | Ellipse box fill => paint (ellipse_cover box) (ink fill) i
  end.

Definition blank (size : Z) : Image :=
  mkImage "RGB" size size (fun _ _ => ink background).

(** The image [create_icon(size)] returns when it returns. *)
Definition rendered (size : Z) : Image :=
  foldl apply_call (blank size) (icon_calls size).

(** The image saved for one variant. *)
Definition variant_image (spec : num * Z) : Image :=
  let size := variant_size spec.1 spec.2 in
  if size =? 1024 then rendered 1024
  else mkImage "RGB" size size (lanczos (rendered 1024) (size, size)).

Definition record_write (path : string) (content : file) (w : World) : World :=
  mkWorld (dirs w) (<[ path := content ]> (files w))
          (writes w ++ [(path, content)]) (stdout w).

Definition variant_write (spec : num * Z) : string * file :=
  (variant_path spec.1 spec.2, PNG (variant_image spec)).

(** The text of the manifest. *)
Definition manifest_text : string :=
  dumps 2 (contents ((fun spec => descriptor spec.1 spec.2) <$> ios_sizes)).

(** Everything a run writes, in order. *)
Definition export_writes : list (string * file) :=
  (primary_path, PNG (rendered 1024))
    :: (variant_write <$> ios_sizes)
    ++ [(manifest_path, Text manifest_text)].

(** The world after a complete run. *)
Definition after_export (w : World) : World :=
  mkWorld ({[ iconset_dir ]} ∪ dirs w)
          (foldl (fun m pc => <[ pc.1 := pc.2 ]> m) (files w) export_writes)
          (writes w ++ export_writes)
          (stdout w ++ [ "Created app-store/icon-1024.png";
                         "Created app-store/AppIcon.appiconset/ with all iOS icon sizes" ]).

End Closed.

Definition is_png (pc : string * file) : bool :=
  match pc.2 with PNG _ => true | Text _ => false end.

(** Where [create_icon(size)] returns: the size is not negative, fits a C
    [int], and the canvas can be allocated. *)
Definition renderable {R : Rasterizer} (size : Z) : bool :=
  (0 <=? size) && (size <? 2 ^ 31) && can_allocate size size.

(** The image of a table entry can be allocated. *)
Definition allocatable {R : Rasterizer} (spec : num * Z) : bool :=
  can_allocate (variant_size spec.1 spec.2) (variant_size spec.1 spec.2).

(** What a run needs of the file system: [app-store] is a directory, no
    target path is a directory, and the icon-set path is a directory or is
    free. *)
Definition fs_ready (w : World) : bool :=
  os.isdir "app-store" w
  && negb (os.isdir primary_path w)
  && (os.isdir iconset_dir w || negb (os.exists_ iconset_dir w))
  && forallb (fun spec : num * Z => negb (os.isdir (variant_path spec.1 spec.2) w)) ios_sizes
  && negb (os.isdir manifest_path w).

(** The worlds in which a run succeeds: the 1024 render and every variant
    image can be allocated, and the file system is ready. *)
Definition exportable {R : Rasterizer} (w : World) : bool :=
  renderable 1024 && forallb allocatable ios_sizes && fs_ready w.

(** The two colours of the design. *)
Definition two_tone (c : rgb) : Prop := c = (15, 23, 42) \/ c = (34, 211, 168).

Definition fill_of (c : call) : string :=
  match c with Line _ fill _ => fill | Ellipse _ fill => fill end.

(** What the loop needs of a table entry: a positive pixel size that fits
    a C [int], and a path that lies directly in the icon-set directory. *)
Definition well_named (spec : num * Z) : bool :=
  (0 <? variant_size spec.1 spec.2)
  && (variant_size spec.1 spec.2 <? 2 ^ 31)
  && String.eqb (os.dirname (variant_path spec.1 spec.2)) iconset_dir
  && negb (String.eqb (variant_path spec.1 spec.2) iconset_dir).

(** The paths a run writes, in order. *)
Definition export_paths : list string :=
  primary_path
    :: ((fun spec : num * Z => variant_path spec.1 spec.2) <$> ios_sizes)
    ++ [manifest_path].

(** The [filename] field of a manifest entry. *)
Definition entry_filename (e : value) : string :=
  match get "filename" e with Some (JStr s) => s | _ => EmptyString end.

(** The [images] list of the manifest. *)
Definition manifest_images : list value :=
  (fun spec : num * Z => descriptor spec.1 spec.2) <$> ios_sizes.

(** The claim that the renderer rejects every non-positive size and
    accepts every positive one. *)
Definition rejects_nonpositive (R : Rasterizer) : Prop :=
  forall size : Z,
    (size <= 0 -> exists msg, create_icon size = Raise (ValueError msg))
    /\ (0 < size -> is_ok (create_icon size) = true).

(** The pixels one call covers, as the rasteriser decides. *)
Definition covered {R : Rasterizer} (c : call) (x y : Z) : bool :=
  match c with
  | Line xy _ w => line_cover xy w x y
  | Ellipse box _ => ellipse_cover box x y
  end.

(** The coordinates one call passes to Pillow. *)
Definition call_coords (c : call) : list Q :=
  match c with
  | Line xy _ _ => flat_map (fun p : Q * Q => [p.1; p.2]) xy
  | Ellipse (x0, y0, x1, y1) _ => [x0; y0; x1; y1]
  end.

(** The box [a] lies within the box [b]. *)
Definition box_inside (a b : Q * Q * Q * Q) : Prop :=
  let '(ax0, ay0, ax1, ay1) := a in
  let '(bx0, by0, bx1, by1) := b in
  (bx0 <= ax0 /\ ax0 <= ax1 /\ ax1 <= bx1
   /\ by0 <= ay0 /\ ay0 <= ay1 /\ ay1 <= by1)%Q.

(** The boxes [a] and [b] have the same centre. *)
Definition concentric (a b : Q * Q * Q * Q) : Prop :=
  let '(ax0, ay0, ax1, ay1) := a in
  let '(bx0, by0, bx1, by1) := b in
  (ax0 + ax1 == bx0 + bx1 /\ ay0 + ay1 == by0 + by1)%Q.

(** A working directory with nothing in it. *)
Definition empty_world : World := mkWorld ∅ ∅ [] [].

(** The exceptions raised for an invalid argument. *)
Definition is_argument_error (e : exn) : bool :=
  match e with ValueError _ | OverflowError => true | _ => false end.

(** The finite binary64 values: [m * 2^e] with [|m| < 2^53] and
    [-1074 <= e <= 971].  On such operands a float operation whose exact
    result is again such a value returns that result. *)
Fixpoint pos_is_pow2 (p : positive) : bool :=
  match p with
  | xH => true
  | xO p' => pos_is_pow2 p'
  | xI _ => false
  end.

Fixpoint pos_odd_part (p : positive) : positive :=
  match p with
  | xO p' => pos_odd_part p'
  | _ => p
  end.

Definition is_binary64 (q : Q) : bool :=
  let r := Qred q in
  match Qnum r with
  | 0 => true
  | Z.pos n | Z.neg n =>
      pos_is_pow2 (Qden r)
      && (Z.log2 (Z.pos (pos_odd_part n)) <? 53)
      && (Z.log2 (Z.pos (Qden r)) <=? 1074)
      && (Z.log2 (Z.pos n) - Z.log2 (Z.pos (Qden r)) <? 1024)
  end.

(** ** The manifest the export is expected to write *)

(** A double quote for every apostrophe: the lines below are written with
    apostrophes where the file has double quotes. *)
Fixpoint requote (s : string) : string :=
  match s with
  | EmptyString => EmptyString
  | String c s' =>
      String (if Ascii.eqb c "'" then "034"%char else c) (requote s')
  end.

(** The lines of one entry of the [images] list; [last] tells whether a
    comma follows it. *)
Definition entry_lines (filename idiom scale size : string) (last : bool)
  : list string :=
  [ "    {";
    "      'filename': '" +:+ filename +:+ "',";
    "      'idiom': '" +:+ idiom +:+ "',";
    "      'scale': '" +:+ scale +:+ "',";
    "      'size': '" +:+ size +:+ "'";
    if last then "    }" else "    }," ].

Definition manifest_lines : list string :=
  [ "{"; "  'images': [" ]
    ++ entry_lines "icon-20@1x.png" "iphone" "1x" "20x20" false
    ++ entry_lines "icon-20@2x.png" "iphone" "2x" "20x20" false
    ++ entry_lines "icon-20@3x.png" "iphone" "3x" "20x20" false
    ++ entry_lines "icon-29@1x.png" "iphone" "1x" "29x29" false
    ++ entry_lines "icon-29@2x.png" "iphone" "2x" "29x29" false
    ++ entry_lines "icon-29@3x.png" "iphone" "3x" "29x29" false
    ++ entry_lines "icon-40@1x.png" "iphone" "1x" "40x40" false
    ++ entry_lines "icon-40@2x.png" "iphone" "2x" "40x40" false
    ++ entry_lines "icon-40@3x.png" "iphone" "3x" "40x40" false
    ++ entry_lines "icon-60@2x.png" "iphone" "2x" "60x60" false
    ++ entry_lines "icon-60@3x.png" "iphone" "3x" "60x60" false
    ++ entry_lines "icon-76@1x.png" "ipad" "1x" "76x76" false
    ++ entry_lines "icon-76@2x.png" "ipad" "2x" "76x76" false
    ++ entry_lines "icon-83.5@2x.png" "ipad" "2x" "83.5x83.5" false
    ++ entry_lines "icon-1024@1x.png" "ios-marketing" "1x" "1024x1024" true
    ++ [ "  ],";
         "  'info': {";
         "    'author': 'xcode',";
         "    'version': 1";
         "  }";
         "}" ].

(** Lines joined by line feeds, with no line feed after the last. *)
Fixpoint unlines (l : list string) : string :=
  match l with
  | [] => EmptyString
  | [x] => x
  | x :: l' => x +:+ String "010"%char (unlines l')
  end.

(** The text of [Contents.json], written out. *)
Definition expected_manifest : string := unlines (requote <$> manifest_lines).

Ltac num_cases :=
  repeat match goal with
         | |- context [Qeq_bool ?a ?b] =>
             let E := fresh "E" in
             destruct (Qeq_bool a b) eqn:E;
             [ apply Qeq_bool_iff in E | apply Qeq_bool_neq in E ]
         end.

(** ** Properties of the renderer *)

Section RendererFacts.
Context {R : Rasterizer}.

Lemma getrgb_background : getrgb background = Some (15, 23, 42).
Proof. reflexivity. Qed.

Lemma getrgb_accent : getrgb accent = Some (34, 211, 168).
Proof. reflexivity. Qed.

Lemma scale_nonneg (size : Z) : 0 <= size -> (0 <= inject_Z size / 1024)%Q.
Proof.
  intros Hs. unfold Qle, Qdiv, Qmult, Qinv, inject_Z; simpl. lia.
Qed.

Lemma scaled_mono (a b : Z) (s : Q) :
  a <= b -> (0 <= s)%Q -> Qle_bool (scaled a s) (scaled b s) = true.
Proof.
  intros Hab Hs. apply Qle_bool_iff. unfold scaled.
  apply Qmult_le_compat_r; [ | exact Hs ].
  rewrite <- Zle_Qle. exact Hab.
Qed.

(** A loop whose every iteration issues one call that succeeds ends with
    those calls applied and recorded in order. *)
Lemma for_each_calls {A} (l : list A) (body : A -> ImageDraw -> result ImageDraw)
      (step : A -> call) (d : ImageDraw) :
  (forall a d', a ∈ l ->
      body a d' = Ok (mkDraw (apply_call (im d') (step a)) (calls d' ++ [step a]))) ->
  for_each l body d
  = Ok (mkDraw (foldl apply_call (im d) (step <$> l)) (calls d ++ (step <$> l))).
Proof.
  revert d. induction l as [ | a l IH ]; intros d Hbody; simpl.
  - rewrite app_nil_r. by destruct d.
  - rewrite (Hbody a d) by left. simpl.
    rewrite IH by (intros; apply Hbody; by right).
    simpl. by rewrite <- app_assoc.
Qed.

Lemma bond_body_call (s : Q) (lw : Z) b d :
  bond_body s lw b d
  = Ok (mkDraw (apply_call (im d) (bond_call s lw b)) (calls d ++ [bond_call s lw b])).
Proof. by destruct b as [[x1 y1] [x2 y2]]. Qed.

Lemma draw_ellipse_call (s : Q) (cx cy r : Z) (fill : string) d :
  (0 <= s)%Q -> 0 <= r -> is_Some (getrgb fill) ->
  draw_ellipse (disk_box s cx cy r) fill d
  = Ok (mkDraw (apply_call (im d) (Ellipse (disk_box s cx cy r) fill))
               (calls d ++ [Ellipse (disk_box s cx cy r) fill])).
Proof.
  intros Hs Hr [c Hc]. unfold draw_ellipse, disk_box.
  rewrite !scaled_mono by (done || lia). simpl.
  unfold ink. by rewrite Hc.
Qed.

Lemma circles_radius c : c ∈ circles -> 0 <= c.2.
Proof.
  intros Hc. assert (Hall : Forall (fun c : Z * Z * Z => 0 <= c.2) circles).
  { unfold circles. repeat constructor; simpl; lia. }
  rewrite Forall_forall in Hall. by apply Hall.
Qed.

Lemma bind_Ok {A B} (a : A) (f : A -> result B) : (Ok a ≫= f) = f a.
Proof. reflexivity. Qed.

Lemma bind_Raise {A B} (e : exn) (f : A -> result B) : (Raise e ≫= f) = Raise e.
Proof. reflexivity. Qed.

Lemma renderable_inv (size : Z) :
  renderable size = true ->
  0 <= size < 2 ^ 31 /\ can_allocate size size = true.
Proof.
  unfold renderable. intros Hr.
  apply andb_prop in Hr as [Hr Hmem]. apply andb_prop in Hr as [Hlo Hhi].
  apply Z.leb_le in Hlo. apply Z.ltb_lt in Hhi. done.
Qed.

Lemma renderable_intro (size : Z) :
  0 <= size < 2 ^ 31 -> can_allocate size size = true -> renderable size = true.
Proof.
  intros Hs Hmem. unfold renderable. rewrite Hmem.
  replace (0 <=? size) with true by lia.
  by replace (size <? 2 ^ 31) with true by lia.
Qed.

Lemma fits_c_int_range (v : Z) : - 2 ^ 31 <= v < 2 ^ 31 -> fits_c_int v = true.
Proof.
  intros Hv. unfold fits_c_int. apply andb_true_intro.
  split; [ apply Z.leb_le | apply Z.ltb_lt ]; lia.
Qed.

Lemma fits_c_int_above (v : Z) : 2 ^ 31 <= v -> fits_c_int v = false.
Proof.
  intros Hv. unfold fits_c_int. apply andb_false_intro2. apply Z.ltb_ge. lia.
Qed.

Lemma Image_new_ok (size : Z) :
  renderable size = true ->
  Image_new "RGB" (size, size) background = Ok (blank size).
Proof.
  intros Hr. apply renderable_inv in Hr as [Hs Hmem].
  unfold Image_new. cbn [fst snd].
  replace (size <? 0) with false by lia. cbn [orb].
  rewrite getrgb_background, fits_c_int_range by lia. by rewrite Hmem.
Qed.

Lemma Image_new_negative (size : Z) :
  size < 0 ->
  Image_new "RGB" (size, size) background
  = Raise (ValueError "Width and height must be >= 0").
Proof.
  intros Hs. unfold Image_new. cbn [fst snd].
  by replace (size <? 0) with true by lia.
Qed.

Lemma Image_new_overflow (size : Z) :
  2 ^ 31 <= size ->
  Image_new "RGB" (size, size) background
  = Raise OverflowError.
Proof.
  intros Hs. unfold Image_new. cbn [fst snd].
  replace (size <? 0) with false by lia. cbn [orb].
  by rewrite getrgb_background, fits_c_int_above.
Qed.

Lemma Image_new_no_memory (size : Z) :
  0 <= size < 2 ^ 31 -> can_allocate size size = false ->
  Image_new "RGB" (size, size) background = Raise MemoryError.
Proof.
  intros Hs Hmem. unfold Image_new. cbn [fst snd].
  replace (size <? 0) with false by lia. cbn [orb].
  rewrite getrgb_background, fits_c_int_range by lia. by rewrite Hmem.
Qed.

(** [create_icon] succeeds on every renderable size, with the calls of
    [icon_calls] issued in order and applied to a blank canvas. *)
Lemma create_icon_draw_ok (size : Z) :
  renderable size = true ->
  create_icon_draw size = Ok (mkDraw (rendered size) (icon_calls size)).
Proof.
  intros Hr. unfold create_icon_draw.
  rewrite Image_new_ok, bind_Ok by done.
  apply renderable_inv in Hr as [Hs _].
  pose proof (scale_nonneg size (proj1 Hs)) as Hq.
  unfold rendered, icon_calls.
  set (s := (inject_Z size / 1024)%Q) in *. cbv zeta.
  rewrite (for_each_calls _ _ (bond_call s (trunc (24 * s)%Q)))
    by (intros; apply bond_body_call).
  rewrite bind_Ok.
  rewrite (for_each_calls _ _ (outer_call s)).
  2:{ intros [[cx cy] r] d' Hc. apply draw_ellipse_call; [done | | by eexists].
      apply (circles_radius _ Hc). }
  rewrite bind_Ok.
  rewrite (for_each_calls _ _ (inner_call s)).
  2:{ intros [[cx cy] r] d' Hc. apply draw_ellipse_call; [done | done | by eexists]. }
  unfold Draw. cbn [im calls].
  by rewrite !foldl_app, app_nil_l.
Qed.

Lemma create_icon_ok (size : Z) :
  renderable size = true -> create_icon size = Ok (rendered size).
Proof.
  intros Hr. unfold create_icon. by rewrite create_icon_draw_ok.
Qed.

Lemma create_icon_draw_negative (size : Z) :
  size < 0 ->
  create_icon_draw size = Raise (ValueError "Width and height must be >= 0").
Proof.
  intros Hs. unfold create_icon_draw. by rewrite Image_new_negative, bind_Raise.
Qed.

Lemma create_icon_draw_overflow (size : Z) :
  2 ^ 31 <= size ->
  create_icon_draw size
  = Raise OverflowError.
Proof.
  intros Hs. unfold create_icon_draw. by rewrite Image_new_overflow, bind_Raise.
Qed.

Lemma create_icon_draw_no_memory (size : Z) :
  0 <= size < 2 ^ 31 -> can_allocate size size = false ->
  create_icon_draw size = Raise MemoryError.
Proof.
  intros Hs Hmem. unfold create_icon_draw.
  by rewrite Image_new_no_memory, bind_Raise.
Qed.

Lemma create_icon_negative (size : Z) :
  size < 0 ->
  create_icon size = Raise (ValueError "Width and height must be >= 0").
Proof.
  intros Hs. unfold create_icon. by rewrite create_icon_draw_negative.
Qed.

Lemma create_icon_overflow (size : Z) :
  2 ^ 31 <= size ->
  create_icon size = Raise OverflowError.
Proof.
  intros Hs. unfold create_icon. by rewrite create_icon_draw_overflow.
Qed.

Lemma create_icon_no_memory (size : Z) :
  0 <= size < 2 ^ 31 -> can_allocate size size = false ->
  create_icon size = Raise MemoryError.
Proof.
  intros Hs Hmem. unfold create_icon. by rewrite create_icon_draw_no_memory.
Qed.

(** [create_icon] returns exactly on the renderable sizes. *)
Lemma create_icon_draw_is_ok (size : Z) :
  is_ok (create_icon_draw size) = renderable size.
Proof.
  destruct (renderable size) eqn:Hr; [ by rewrite create_icon_draw_ok | ].
  destruct (decide (size < 0)); [ by rewrite create_icon_draw_negative | ].
  destruct (decide (2 ^ 31 <= size)); [ by rewrite create_icon_draw_overflow | ].
  rewrite create_icon_draw_no_memory; [ done | lia | ].
  unfold renderable in Hr.
  replace (0 <=? size) with true in Hr by lia.
  replace (size <? 2 ^ 31) with true in Hr by lia. exact Hr.
Qed.

Lemma create_icon_is_ok (size : Z) : is_ok (create_icon size) = renderable size.
Proof.
  rewrite <- create_icon_draw_is_ok. unfold create_icon.
  by destruct (create_icon_draw size).
Qed.

End RendererFacts.

Section RendererClaims.
Context {R : Rasterizer}.

Lemma apply_call_shape (i : Image) (c : call) :
  mode (apply_call i c) = mode i
  /\ width (apply_call i c) = width i
  /\ height (apply_call i c) = height i.
Proof. by destruct c. Qed.

Lemma foldl_apply_call_shape (l : list call) (i : Image) :
  mode (foldl apply_call i l) = mode i
  /\ width (foldl apply_call i l) = width i
  /\ height (foldl apply_call i l) = height i.
Proof.
  revert i. induction l as [ | c l IH ]; intros i; simpl; [ done | ].
  destruct (IH (apply_call i c)) as (Hm & Hw & Hh).
  destruct (apply_call_shape i c) as (Hm' & Hw' & Hh').
  rewrite Hm, Hw, Hh. done.
Qed.

(** C6, as the code has it: for every positive size S below 2^31 whose
    canvas can be allocated, [create_icon(S)] returns an RGB image whose
    width and height are both S. *)
Theorem create_icon_size (S : Z) :
  0 < S -> S < 2 ^ 31 -> can_allocate S S = true ->
  exists img, create_icon S = Ok img
              /\ mode img = "RGB" /\ width img = S /\ height img = S.
Proof.
  intros HS Hhi Hmem. exists (rendered S). split.
  - apply create_icon_ok. apply renderable_intro; [ lia | done ].
  - apply (foldl_apply_call_shape (icon_calls S) (blank S)).
Qed.

Lemma icon_calls_fills (size : Z) :
  Forall (fun c => fill_of c = accent \/ fill_of c = background) (icon_calls size).
Proof.
  unfold icon_calls. cbv zeta. rewrite !Forall_app, !Forall_fmap.
  repeat split; apply Forall_forall.
  - intros [[x1 y1] [x2 y2]] _. by left.
  - intros [[cx cy] r] _. by left.
  - intros [[cx cy] r] _. by right.
Qed.

Lemma apply_call_two_tone (i : Image) (c : call) :
  (fill_of c = accent \/ fill_of c = background) ->
  (forall x y, two_tone (getpixel i x y)) ->
  forall x y, two_tone (getpixel (apply_call i c) x y).
Proof.
  intros Hfill Hi x y.
  assert (Hink : two_tone (ink (fill_of c))).
  { destruct Hfill as [-> | ->]; [ by right | by left ]. }
  destruct c as [xy fill w | box fill]; simpl in *.
  - destruct (line_cover xy w x y); [ exact Hink | apply Hi ].
  - destruct (ellipse_cover box x y); [ exact Hink | apply Hi ].
Qed.

Lemma foldl_two_tone (l : list call) (i : Image) :
  Forall (fun c => fill_of c = accent \/ fill_of c = background) l ->
  (forall x y, two_tone (getpixel i x y)) ->
  forall x y, two_tone (getpixel (foldl apply_call i l) x y).
Proof.
  revert i. induction l as [ | c l IH ]; intros i Hl Hi; simpl; [ done | ].
  inversion Hl; subst. apply IH; [ done | ]. by apply apply_call_two_tone.
Qed.

(** C9: for every positive size S at which [create_icon(S)] returns, every
    pixel of the image it returns is either the background colour #0f172a
    or the accent colour #22d3a8. *)
Theorem create_icon_two_colours (S : Z) :
  0 < S -> is_ok (create_icon S) = true ->
  exists img, create_icon S = Ok img
              /\ getrgb background = Some (15, 23, 42)
              /\ getrgb accent = Some (34, 211, 168)
              /\ forall x y, 0 <= x < width img -> 0 <= y < height img ->
                             getpixel img x y = (15, 23, 42)
                             \/ getpixel img x y = (34, 211, 168).
Proof.
  intros HS Hok. rewrite create_icon_is_ok in Hok.
  exists (rendered S). split; [ by apply create_icon_ok | ].
  do 2 (split; [ reflexivity | ]). intros x y _ _.
  apply (foldl_two_tone (icon_calls S) (blank S)).
  - apply icon_calls_fills.
  - intros x' y'. by left.
Qed.

(** In a list made of two parts, an element of the first kind found only
    in the first part comes before any element of the second kind found
    only in the second part. *)
Lemma phase_order {A} (P Q : A -> bool) (l1 l2 : list A) (i j : nat) (a b : A) :
  Forall (fun a => Q a = false) l1 ->
  Forall (fun a => P a = false) l2 ->
  (l1 ++ l2) !! i = Some a -> (l1 ++ l2) !! j = Some b ->
  P a = true -> Q b = true -> (i < j)%nat.
Proof.
  intros HQ HP Hi Hj Ha Hb.
  assert (Hil : (i < length l1)%nat).
  { destruct (decide (i < length l1)%nat) as [ | Hge ]; [ done | exfalso ].
    rewrite lookup_app_r in Hi by lia.
    rewrite Forall_forall in HP.
    apply list_elem_of_lookup_2 in Hi. apply HP in Hi. congruence. }
  assert (Hjl : (length l1 <= j)%nat).
  { destruct (decide (length l1 <= j)%nat) as [ | Hlt ]; [ done | exfalso ].
    rewrite lookup_app_l in Hj by lia.
    rewrite Forall_forall in HQ.
    apply list_elem_of_lookup_2 in Hj. apply HQ in Hj. congruence. }
  lia.
Qed.

Lemma bond_calls_kind (s : Q) (lw : Z) :
  Forall (fun c => is_line c = true /\ is_outer c = false /\ is_inner c = false)
         (bond_call s lw <$> bonds).
Proof.
  rewrite Forall_fmap. apply Forall_forall. by intros [[x1 y1] [x2 y2]] _.
Qed.

Lemma outer_calls_kind (s : Q) :
  Forall (fun c => is_line c = false /\ is_outer c = true /\ is_inner c = false)
         (outer_call s <$> circles).
Proof.
  rewrite Forall_fmap. apply Forall_forall. by intros [[cx cy] r] _.
Qed.

Lemma inner_calls_kind (s : Q) :
  Forall (fun c => is_line c = false /\ is_outer c = false /\ is_inner c = true)
         (inner_call s <$> circles).
Proof.
  rewrite Forall_fmap. apply Forall_forall. by intros [[cx cy] r] _.
Qed.

(** C8: the calls of one [create_icon] run come in three separate
    phases: the seven bond lines, then the six outer disks, then the six
    inner disks; so every line precedes every outer disk, and every
    outer disk precedes every inner disk.  This holds of every run that
    gets to draw, that is, of every size at which [Image.new] returns. *)
Theorem create_icon_phases (size : Z) :
  is_ok (create_icon_draw size) = true ->
  exists d, create_icon_draw size = Ok d
            /\ create_icon size = Ok (im d)
            /\ length (filter is_line (calls d)) = 7%nat
            /\ length (filter is_outer (calls d)) = 6%nat
            /\ length (filter is_inner (calls d)) = 6%nat
            /\ length (calls d) = 19%nat
            /\ forall (i j : nat) (a b : call),
                 calls d !! i = Some a -> calls d !! j = Some b ->
                 (is_line a = true -> is_outer b = true -> (i < j)%nat)
                 /\ (is_outer a = true -> is_inner b = true -> (i < j)%nat).
Proof.
  intros Hok. rewrite create_icon_draw_is_ok in Hok.
  exists (mkDraw (rendered size) (icon_calls size)).
  split; [ by apply create_icon_draw_ok | ].
  split; [ by apply create_icon_ok | ].
  do 4 (split; [ reflexivity | ]).
  cbn [calls]. unfold icon_calls. cbv zeta.
  set (s := (inject_Z size / 1024)%Q). set (lw := trunc (24 * s)%Q).
  pose proof (bond_calls_kind s lw) as Hb.
  pose proof (outer_calls_kind s) as Ho.
  pose proof (inner_calls_kind s) as Hi.
  intros i j a b Ha Hb'. split; intros Pa Pb.
  - eapply (phase_order is_line is_outer); [ | | exact Ha | exact Hb' | done | done ].
    + eapply Forall_impl; [ exact Hb | ]. by intros c (_ & ? & _).
    + apply Forall_app; split; (eapply Forall_impl; [ eassumption | ]);
        by intros c (? & _ & _).
  - rewrite app_assoc in Ha, Hb'.
    eapply (phase_order is_outer is_inner); [ | | exact Ha | exact Hb' | done | done ].
    + apply Forall_app; split; (eapply Forall_impl; [ eassumption | ]);
        by intros c (_ & _ & ?).
    + eapply Forall_impl; [ exact Hi | ]. by intros c (_ & ? & _).
Qed.

End RendererClaims.

(** ** Properties of the export *)

Section ExportFacts.
Context {R : Rasterizer}.

Lemma ios_sizes_well_named : forallb well_named ios_sizes = true.
Proof. vm_compute. reflexivity. Qed.

Lemma rendered_shape (size : Z) :
  mode (rendered size) = "RGB"
  /\ width (rendered size) = size /\ height (rendered size) = size.
Proof. apply (foldl_apply_call_shape (icon_calls size) (blank size)). Qed.

Lemma well_named_inv (spec : num * Z) :
  well_named spec = true ->
  0 < variant_size spec.1 spec.2 < 2 ^ 31
  /\ os.dirname (variant_path spec.1 spec.2) = iconset_dir
  /\ variant_path spec.1 spec.2 ≠ iconset_dir.
Proof.
  unfold well_named. intros Hwn.
  apply andb_prop in Hwn as [Hwn Hne]. apply andb_prop in Hwn as [Hwn Hparent].
  apply andb_prop in Hwn as [Hlo Hhi].
  apply Z.ltb_lt in Hlo. apply Z.ltb_lt in Hhi.
  apply String.eqb_eq in Hparent.
  apply negb_true_iff in Hne. apply String.eqb_neq in Hne. done.
Qed.

Lemma resize_variant (spec : num * Z) :
  0 < variant_size spec.1 spec.2 < 2 ^ 31 ->
  allocatable spec = true ->
  resize (rendered 1024) (variant_size spec.1 spec.2, variant_size spec.1 spec.2)
  = Ok (variant_image spec).
Proof.
  unfold resize, variant_image, allocatable.
  destruct (rendered_shape 1024) as (Hm & Hw & Hh). rewrite Hm, Hw, Hh.
  cbn [fst snd].
  generalize (variant_size spec.1 spec.2). intros size Hsize Halloc.
  rewrite Halloc.
  destruct (decide (size = 1024)) as [-> | Hne].
  - reflexivity.
  - replace (1024 =? size) with false by lia.
    replace (size =? 1024) with false by lia.
    rewrite fits_c_int_range by lia.
    replace (size <? 1) with false by lia. reflexivity.
Qed.

Lemma write_file_ok (path : string) (content : file) (w : World) :
  os.isdir path w = false ->
  os.isdir (os.dirname path) w = true ->
  write_file path content w = Ok (record_write path content w).
Proof.
  intros Hp Hd. unfold write_file, os.check_parent.
  rewrite Hp, Hd, orb_true_r. reflexivity.
Qed.

Lemma isdir_record_write (p path : string) (content : file) (w : World) :
  os.isdir p (record_write path content w) = os.isdir p w.
Proof. reflexivity. Qed.

(** One iteration, once the 1024 render has returned: the resized image is
    saved under the entry's path. *)
Lemma export_variant_unfold (spec : num * Z) (images : list value) (w : World) :
  well_named spec = true ->
  renderable 1024 = true ->
  allocatable spec = true ->
  export_variant spec (images, w)
  = (save (variant_image spec) (variant_path spec.1 spec.2) w
     ≫= fun w' => Ok (images ++ [descriptor spec.1 spec.2], w')).
Proof.
  intros Hwn H1024 Halloc. apply well_named_inv in Hwn as (Hsize & _ & _).
  pose proof (resize_variant spec Hsize Halloc) as Hres.
  destruct spec as [base_size scale]. unfold export_variant.
  cbn [fst snd] in *.
  by rewrite create_icon_ok, bind_Ok, Hres, bind_Ok by done.
Qed.

Lemma export_variant_ok (spec : num * Z) (images : list value) (w : World) :
  well_named spec = true ->
  os.isdir iconset_dir w = true ->
  os.isdir (variant_path spec.1 spec.2) w = false ->
  renderable 1024 = true ->
  allocatable spec = true ->
  export_variant spec (images, w)
  = Ok (images ++ [descriptor spec.1 spec.2],
        record_write (variant_write spec).1 (variant_write spec).2 w).
Proof.
  intros Hwn Hdir Hfree H1024 Halloc.
  rewrite export_variant_unfold by done.
  apply well_named_inv in Hwn as (_ & Hparent & _).
  unfold save, variant_write. cbn [fst snd].
  rewrite write_file_ok; [ done | done | by rewrite Hparent ].
Qed.

Lemma export_loop_ok (specs : list (num * Z)) (images : list value) (w : World) :
  forallb well_named specs = true ->
  os.isdir iconset_dir w = true ->
  forallb (fun spec : num * Z => negb (os.isdir (variant_path spec.1 spec.2) w)) specs = true ->
  renderable 1024 = true ->
  forallb allocatable specs = true ->
  export_loop specs (images, w)
  = Ok (images ++ ((fun spec => descriptor spec.1 spec.2) <$> specs),
        foldl (fun w pc => record_write pc.1 pc.2 w) w (variant_write <$> specs)).
Proof.
  revert images w.
  induction specs as [ | spec specs IH ]; intros images w Hwn Hdir Hfree H1024 Halloc.
  - simpl. by rewrite app_nil_r.
  - cbn [forallb] in Hwn, Hfree, Halloc.
    apply andb_prop in Hwn as [Hwn1 Hwn]. apply andb_prop in Hfree as [Hfree1 Hfree].
    apply andb_prop in Halloc as [Halloc1 Halloc].
    apply negb_true_iff in Hfree1.
    cbn [export_loop]. rewrite export_variant_ok, bind_Ok by done.
    rewrite IH by done. cbn [fmap list_fmap foldl].
    by rewrite <- app_assoc.
Qed.

Lemma foldl_record_write (l : list (string * file)) (w : World) :
  foldl (fun w pc => record_write pc.1 pc.2 w) w l
  = mkWorld (dirs w) (foldl (fun m pc => <[ pc.1 := pc.2 ]> m) (files w) l)
            (writes w ++ l) (stdout w).
Proof.
  revert w. induction l as [ | [p c] l IH ]; intros w; simpl.
  - rewrite app_nil_r. by destruct w.
  - rewrite IH. simpl. by rewrite <- app_assoc.
Qed.

(** When the parent exists, [makedirs] only makes the leaf. *)
Lemma makedirs_go_parent_exists (fuel : nat) (name : string) (w : World) :
  os.exists_ (os.dirname name) w = true ->
  os.makedirs_go fuel name w
  = match os.mkdir name w with
    | Ok w2 => Ok w2
    | Raise e => if os.isdir name w then Ok w else Raise e
    end.
Proof.
  intros Hex. destruct fuel; cbn [os.makedirs_go];
    rewrite Hex; cbn [negb]; rewrite andb_false_r; apply bind_Ok.
Qed.

Lemma makedirs_iconset (w : World) :
  os.isdir "app-store" w = true ->
  os.isdir iconset_dir w || negb (os.exists_ iconset_dir w) = true ->
  os.makedirs iconset_dir w
  = Ok (mkWorld ({[ iconset_dir ]} ∪ dirs w) (files w) (writes w) (stdout w)).
Proof.
  intros Happ Hfree. unfold os.makedirs.
  assert (Hdir : os.dirname iconset_dir = "app-store") by reflexivity.
  rewrite makedirs_go_parent_exists
    by (rewrite Hdir; unfold os.exists_; by rewrite Happ).
  unfold os.mkdir.
  destruct (os.exists_ iconset_dir w) eqn:Hex.
  - rewrite orb_false_r in Hfree. rewrite Hfree.
    destruct w as [ds fs ws out]. cbn [dirs files writes stdout]. do 2 f_equal.
    unfold os.isdir in Hfree. cbn [dirs] in Hfree.
    apply bool_decide_eq_true in Hfree.
    symmetry. apply subseteq_union_1_L. by apply singleton_subseteq_l.
  - unfold os.check_parent. rewrite Hdir, Happ, orb_true_r. reflexivity.
Qed.

Lemma fs_ready_inv (w : World) :
  fs_ready w = true ->
  os.isdir "app-store" w = true
  /\ os.isdir primary_path w = false
  /\ os.isdir iconset_dir w || negb (os.exists_ iconset_dir w) = true
  /\ forallb (fun spec : num * Z => negb (os.isdir (variant_path spec.1 spec.2) w))
             ios_sizes = true
  /\ os.isdir manifest_path w = false.
Proof.
  unfold fs_ready. intros Hx.
  apply andb_prop in Hx as [Hx H5]. apply andb_prop in Hx as [Hx H4].
  apply andb_prop in Hx as [Hx H3]. apply andb_prop in Hx as [H1 H2].
  apply negb_true_iff in H2, H5. done.
Qed.

Lemma exportable_inv (w : World) :
  exportable w = true ->
  renderable 1024 = true
  /\ forallb allocatable ios_sizes = true
  /\ os.isdir "app-store" w = true
  /\ os.isdir primary_path w = false
  /\ os.isdir iconset_dir w || negb (os.exists_ iconset_dir w) = true
  /\ forallb (fun spec : num * Z => negb (os.isdir (variant_path spec.1 spec.2) w))
             ios_sizes = true
  /\ os.isdir manifest_path w = false.
Proof.
  unfold exportable. intros Hx.
  apply andb_prop in Hx as [Hx Hfs]. apply andb_prop in Hx as [H1024 Halloc].
  apply fs_ready_inv in Hfs. done.
Qed.

(** Adding the icon-set directory does not turn a path other than it into
    a directory. *)
Lemma isdir_add_iconset (p : string) (ds : gset string) fs ws out :
  p ≠ iconset_dir ->
  os.isdir p (mkWorld ({[ iconset_dir ]} ∪ ds) fs ws out)
  = os.isdir p (mkWorld ds fs ws out).
Proof.
  intros Hne. unfold os.isdir. simpl.
  apply bool_decide_ext. rewrite elem_of_union, elem_of_singleton. tauto.
Qed.

Lemma exists_record_write_ne (p path : string) (content : file) (w : World) :
  p ≠ path ->
  os.exists_ p (record_write path content w) = os.exists_ p w.
Proof.
  intros Hne. unfold os.exists_, record_write, os.isdir. cbn [dirs files].
  by rewrite lookup_insert_ne.
Qed.

(** A run in an exportable world succeeds and leaves [after_export]. *)
Lemma main_ok (w : World) :
  exportable w = true -> main w = Ok (after_export w).
Proof.
  intros Hx.
  apply exportable_inv in Hx as (H1024 & Halloc & Happ & Hprim & Hset & Hvar & Hman).
  unfold main. rewrite create_icon_ok, bind_Ok by done.
  unfold save. rewrite write_file_ok, bind_Ok by done. cbv zeta.
  rewrite makedirs_iconset; [ | exact Happ | ].
  2:{ change (os.isdir iconset_dir w
              || negb (os.exists_ iconset_dir
                         (record_write primary_path (PNG (rendered 1024)) w)) = true).
      by rewrite exists_record_write_ne. }
  rewrite bind_Ok, export_loop_ok.
  - rewrite bind_Ok. cbn [fst snd]. rewrite foldl_record_write.
    unfold json_dump. rewrite write_file_ok.
    + rewrite bind_Ok. unfold after_export, record_write, print, export_writes.
      cbn [dirs files writes stdout app]. f_equal. f_equal.
      all: by rewrite <- ?app_assoc, ?foldl_app.
    + destruct w as [ds fs ws out]. unfold os.isdir in *. simpl in *.
      apply bool_decide_eq_false. apply bool_decide_eq_false in Hman.
      rewrite elem_of_union, elem_of_singleton. by intros [ | ].
    + apply bool_decide_eq_true. apply elem_of_union_l. by apply elem_of_singleton.
  - apply ios_sizes_well_named.
  - apply bool_decide_eq_true. apply elem_of_union_l. by apply elem_of_singleton.
  - pose proof ios_sizes_well_named as Hwn.
    rewrite forallb_forall in Hvar, Hwn. apply forallb_forall.
    intros spec Hin. specialize (Hvar spec Hin). specialize (Hwn spec Hin).
    apply well_named_inv in Hwn as (_ & _ & Hne).
    destruct w as [ds fs ws out]. unfold print, record_write. simpl.
    rewrite isdir_add_iconset by done. exact Hvar.
  - exact H1024.
  - exact Halloc.
Qed.

End ExportFacts.

Section WrittenFiles.
Context {R : Rasterizer}.

Lemma foldl_insert_notin (l : list (string * file)) (m : gmap string file) (p : string) :
  p ∉ l.*1 ->
  foldl (fun m pc => <[ pc.1 := pc.2 ]> m) m l !! p = m !! p.
Proof.
  revert m. induction l as [ | [p0 c0] l IH ]; intros m Hp; simpl; [ done | ].
  rewrite fmap_cons, not_elem_of_cons in Hp. destruct Hp as [Hne Hp].
  rewrite IH by done. simpl in *. by rewrite lookup_insert_ne.
Qed.

(** With pairwise distinct paths, each written path holds what was
    written to it. *)
Lemma foldl_insert_lookup (l : list (string * file)) (m : gmap string file)
      (p : string) (c : file) :
  NoDup (l.*1) -> (p, c) ∈ l ->
  foldl (fun m pc => <[ pc.1 := pc.2 ]> m) m l !! p = Some c.
Proof.
  revert m. induction l as [ | [p0 c0] l IH ]; intros m Hnd Hin.
  - by apply elem_of_nil in Hin.
  - rewrite fmap_cons in Hnd. apply NoDup_cons in Hnd as [Hnotin Hnd].
    apply elem_of_cons in Hin as [Heq | Hin]; simpl.
    + injection Heq as -> ->. rewrite foldl_insert_notin by done.
      apply lookup_insert_eq.
    + by apply IH.
Qed.

Lemma export_writes_paths : export_writes.*1 = export_paths.
Proof.
  unfold export_writes, export_paths.
  rewrite fmap_cons, fmap_app, <- list_fmap_compose. reflexivity.
Qed.

Lemma export_paths_NoDup : NoDup export_paths.
Proof. refine (bool_decide_unpack _ _). vm_compute. exact I. Qed.

Lemma after_export_lookup (w : World) (p : string) (c : file) :
  (p, c) ∈ export_writes -> files (after_export w) !! p = Some c.
Proof.
  intros Hin. unfold after_export. cbn [files].
  apply foldl_insert_lookup; [ | done ].
  rewrite export_writes_paths. apply export_paths_NoDup.
Qed.

Lemma variant_write_in (spec : num * Z) :
  spec ∈ ios_sizes -> variant_write spec ∈ export_writes.
Proof.
  intros Hin. unfold export_writes. apply elem_of_cons. right.
  apply elem_of_app. left. by apply list_elem_of_fmap_2.
Qed.

Lemma variant_image_shape (spec : num * Z) :
  mode (variant_image spec) = "RGB"
  /\ width (variant_image spec) = variant_size spec.1 spec.2
  /\ height (variant_image spec) = variant_size spec.1 spec.2.
Proof.
  unfold variant_image.
  destruct (variant_size spec.1 spec.2 =? 1024) eqn:Hsz; [ | done ].
  apply Z.eqb_eq in Hsz. rewrite Hsz. apply rendered_shape.
Qed.

Lemma variant_size_rounds :
  forallb (fun spec : num * Z =>
             variant_size spec.1 spec.2
             =? round_half_up (to_Q spec.1 * inject_Z spec.2)%Q) ios_sizes = true.
Proof. vm_compute. reflexivity. Qed.

Lemma fs_ready_after_export (w : World) :
  fs_ready w = true -> fs_ready (after_export w) = true.
Proof.
  intros Hx. apply fs_ready_inv in Hx as (Happ & Hprim & Hset & Hvar & Hman).
  destruct w as [ds fs ws out]. unfold fs_ready, after_export.
  cbn [dirs files writes stdout].
  assert (Hset' : forall fs' ws' out',
             os.isdir iconset_dir (mkWorld ({[ iconset_dir ]} ∪ ds) fs' ws' out') = true).
  { intros. apply bool_decide_eq_true. apply elem_of_union_l. by apply elem_of_singleton. }
  assert (Happ' : forall fs' ws' out',
             os.isdir "app-store" (mkWorld ({[ iconset_dir ]} ∪ ds) fs' ws' out') = true).
  { intros. rewrite isdir_add_iconset by done. exact Happ. }
  rewrite Happ', Hset'. rewrite !isdir_add_iconset by done.
  unfold os.isdir in *. cbn [dirs] in *. rewrite Hprim, Hman. cbn [negb andb orb].
  rewrite andb_true_r.
  pose proof ios_sizes_well_named as Hwn.
  rewrite forallb_forall in Hvar, Hwn. apply forallb_forall.
  intros spec Hin. specialize (Hvar spec Hin). specialize (Hwn spec Hin).
  apply well_named_inv in Hwn as (_ & _ & Hne).
  rewrite <- Hvar. f_equal. apply bool_decide_ext.
  rewrite elem_of_union, elem_of_singleton. tauto.
Qed.

Lemma exportable_after_export (w : World) :
  exportable w = true -> exportable (after_export w) = true.
Proof.
  unfold exportable. intros Hx.
  apply andb_prop in Hx as [Hmem Hfs]. rewrite Hmem. cbn [andb].
  by apply fs_ready_after_export.
Qed.

(** *** When a run fails *)

Lemma is_ok_bind_failed {A B} (r : result A) (f : A -> result B) :
  is_ok r = false -> is_ok (r ≫= f) = false.
Proof. by destruct r. Qed.

Lemma write_file_isdir (path : string) (content : file) (w : World) :
  os.isdir path w = true ->
  write_file path content w = Raise (IsADirectoryError path).
Proof. intros Hd. unfold write_file. by rewrite Hd. Qed.

(** Writing below a path that is not a directory fails. *)
Lemma write_file_orphan (path : string) (content : file) (w : World) :
  String.eqb (os.dirname path) EmptyString = false ->
  os.isdir (os.dirname path) w = false ->
  is_ok (write_file path content w) = false.
Proof.
  intros Hne Hd. unfold write_file, os.check_parent. rewrite Hne, Hd.
  destruct (os.isdir path w); [ done | ].
  by destruct (os.exists_ (os.dirname path) w).
Qed.

Lemma makedirs_iconset_blocked (w : World) :
  os.isdir "app-store" w = true ->
  os.isdir iconset_dir w || negb (os.exists_ iconset_dir w) = false ->
  os.makedirs iconset_dir w = Raise (FileExistsError iconset_dir).
Proof.
  intros Happ Hblocked. apply orb_false_elim in Hblocked as [Hd Hex].
  apply negb_false_iff in Hex. unfold os.makedirs.
  assert (Hdir : os.dirname iconset_dir = "app-store") by reflexivity.
  rewrite makedirs_go_parent_exists
    by (rewrite Hdir; unfold os.exists_; by rewrite Happ).
  unfold os.mkdir. by rewrite Hex, Hd.
Qed.

Lemma resize_variant_no_memory (spec : num * Z) :
  0 < variant_size spec.1 spec.2 < 2 ^ 31 ->
  allocatable spec = false ->
  resize (rendered 1024) (variant_size spec.1 spec.2, variant_size spec.1 spec.2)
  = Raise MemoryError.
Proof.
  unfold resize, allocatable.
  destruct (rendered_shape 1024) as (Hm & Hw & Hh). rewrite Hw, Hh.
  cbn [fst snd].
  generalize (variant_size spec.1 spec.2). intros size Hsize Halloc.
  rewrite Halloc.
  destruct ((1024 =? size) && (1024 =? size)); [ reflexivity | ].
  rewrite fits_c_int_range by lia.
  replace (size <? 1) with false by lia. reflexivity.
Qed.

Lemma export_variant_no_memory (spec : num * Z) (images : list value) (w : World) :
  well_named spec = true ->
  renderable 1024 = true ->
  allocatable spec = false ->
  export_variant spec (images, w) = Raise MemoryError.
Proof.
  intros Hwn H1024 Halloc. apply well_named_inv in Hwn as (Hsize & _ & _).
  pose proof (resize_variant_no_memory spec Hsize Halloc) as Hres.
  destruct spec as [base_size scale]. unfold export_variant.
  cbn [fst snd] in *.
  by rewrite create_icon_ok, bind_Ok, Hres, bind_Raise by done.
Qed.

Lemma export_variant_isdir (spec : num * Z) (images : list value) (w : World) :
  well_named spec = true ->
  renderable 1024 = true ->
  allocatable spec = true ->
  os.isdir (variant_path spec.1 spec.2) w = true ->
  export_variant spec (images, w)
  = Raise (IsADirectoryError (variant_path spec.1 spec.2)).
Proof.
  intros Hwn H1024 Halloc Hd. rewrite export_variant_unfold by done.
  unfold save. by rewrite write_file_isdir, bind_Raise.
Qed.

(** The loop completes exactly when every variant image can be allocated
    and no variant path is a directory. *)
Lemma export_loop_is_ok (specs : list (num * Z)) (images : list value) (w : World) :
  forallb well_named specs = true ->
  os.isdir iconset_dir w = true ->
  renderable 1024 = true ->
  is_ok (export_loop specs (images, w))
  = forallb (fun spec : num * Z =>
               allocatable spec && negb (os.isdir (variant_path spec.1 spec.2) w)) specs.
Proof.
  revert images w. induction specs as [ | spec specs IH ]; intros images w Hwn Hdir H1024.
  - reflexivity.
  - cbn [forallb] in Hwn |- *. apply andb_prop in Hwn as [Hwn1 Hwn].
    cbn [export_loop].
    destruct (allocatable spec) eqn:Halloc.
    2:{ by rewrite export_variant_no_memory, bind_Raise. }
    destruct (os.isdir (variant_path spec.1 spec.2) w) eqn:Hd.
    + by rewrite export_variant_isdir, bind_Raise.
    + rewrite export_variant_ok, bind_Ok by done.
      rewrite IH by done. reflexivity.
Qed.

Lemma forallb_andb {A} (f g : A -> bool) (l : list A) :
  forallb (fun a => f a && g a) l = forallb f l && forallb g l.
Proof.
  induction l as [ | a l IH ]; [ reflexivity | ].
  cbn [forallb]. rewrite IH.
  destruct (f a), (g a), (forallb f l), (forallb g l); reflexivity.
Qed.

(** The world in which the loop starts: the primary icon is written, its
    line printed, and the icon-set directory present. *)
Lemma isdir_loop_start (p : string) (img : Image) (line : string) (w : World) :
  p ≠ iconset_dir ->
  os.isdir p (mkWorld ({[ iconset_dir ]}
                         ∪ dirs (print line (record_write primary_path (PNG img) w)))
                      (files (print line (record_write primary_path (PNG img) w)))
                      (writes (print line (record_write primary_path (PNG img) w)))
                      (stdout (print line (record_write primary_path (PNG img) w))))
  = os.isdir p w.
Proof.
  intros Hne. unfold os.isdir, print, record_write. cbn [dirs].
  apply bool_decide_ext. rewrite elem_of_union, elem_of_singleton. tauto.
Qed.

Lemma isdir_iconset_added (ds : gset string) fs ws out :
  os.isdir iconset_dir (mkWorld ({[ iconset_dir ]} ∪ ds) fs ws out) = true.
Proof.
  apply bool_decide_eq_true. apply elem_of_union_l. by apply elem_of_singleton.
Qed.

Lemma forallb_agree {A} (f g : A -> bool) (l : list A) :
  (forall a, In a l -> f a = g a) -> forallb f l = forallb g l.
Proof.
  induction l as [ | a l IH ]; intros Hfg; [ reflexivity | ].
  cbn [forallb]. rewrite (Hfg a) by (by left).
  rewrite IH; [ reflexivity | ]. intros b Hb. apply Hfg. by right.
Qed.

Lemma variants_free_loop_start (img : Image) (line : string) (w : World) :
  forallb (fun spec : num * Z =>
             negb (os.isdir (variant_path spec.1 spec.2)
                     (mkWorld ({[ iconset_dir ]}
                                 ∪ dirs (print line (record_write primary_path (PNG img) w)))
                              (files (print line (record_write primary_path (PNG img) w)))
                              (writes (print line (record_write primary_path (PNG img) w)))
                              (stdout (print line (record_write primary_path (PNG img) w))))))
          ios_sizes
  = forallb (fun spec : num * Z => negb (os.isdir (variant_path spec.1 spec.2) w)) ios_sizes.
Proof.
  pose proof ios_sizes_well_named as Hwn. rewrite forallb_forall in Hwn.
  apply forallb_agree. intros spec Hin. specialize (Hwn spec Hin).
  apply well_named_inv in Hwn as (_ & _ & Hne).
  by rewrite isdir_loop_start.
Qed.

(** The conditions of [exportable], in the order the run meets them. *)
Lemma exportable_in_order (r al a b c d e : bool) :
  r && al && (a && negb b && c && d && negb e)
  = r && (negb b && (a && (c && ((al && d) && negb e)))).
Proof. by destruct r, al, a, b, c, d, e. Qed.

(** A run completes exactly in the exportable worlds. *)
Lemma main_is_ok (w : World) : is_ok (main w) = exportable w.
Proof.
  unfold exportable, fs_ready. rewrite exportable_in_order.
  destruct (renderable 1024) eqn:H1024; cbn [andb].
  2:{ unfold main. apply is_ok_bind_failed. by rewrite create_icon_is_ok. }
  unfold main. rewrite create_icon_ok, bind_Ok by done. unfold save.
  destruct (os.isdir primary_path w) eqn:Hprim; cbn [negb andb].
  { by rewrite write_file_isdir, bind_Raise. }
  destruct (os.isdir "app-store" w) eqn:Happ; cbn [andb].
  2:{ apply is_ok_bind_failed. by apply write_file_orphan. }
  rewrite write_file_ok, bind_Ok by done. cbv zeta.
  destruct (os.isdir iconset_dir w || negb (os.exists_ iconset_dir w)) eqn:Hset;
    cbn [andb].
  2:{ rewrite makedirs_iconset_blocked; [ done | exact Happ | ].
      change (os.isdir iconset_dir w
              || negb (os.exists_ iconset_dir
                         (record_write primary_path (PNG (rendered 1024)) w)) = false).
      by rewrite exists_record_write_ne. }
  rewrite makedirs_iconset; [ | exact Happ | ].
  2:{ change (os.isdir iconset_dir w
              || negb (os.exists_ iconset_dir
                         (record_write primary_path (PNG (rendered 1024)) w)) = true).
      by rewrite exists_record_write_ne. }
  rewrite bind_Ok.
  destruct (forallb allocatable ios_sizes) eqn:Halloc; cbn [andb].
  2:{ apply is_ok_bind_failed.
      rewrite export_loop_is_ok
        by (apply ios_sizes_well_named || apply isdir_iconset_added || exact H1024).
      by rewrite forallb_andb, Halloc. }
  destruct (forallb (fun spec : num * Z =>
                       negb (os.isdir (variant_path spec.1 spec.2) w)) ios_sizes) eqn:Hvar;
    cbn [andb].
  2:{ apply is_ok_bind_failed.
      rewrite export_loop_is_ok
        by (apply ios_sizes_well_named || apply isdir_iconset_added || exact H1024).
      by rewrite forallb_andb, variants_free_loop_start, Hvar, andb_false_r. }
  rewrite export_loop_ok, bind_Ok;
    [ | apply ios_sizes_well_named | apply isdir_iconset_added
      | by rewrite variants_free_loop_start | exact H1024 | exact Halloc ].
  cbn [fst snd]. unfold json_dump. rewrite foldl_record_write.
  destruct (os.isdir manifest_path w) eqn:Hman; cbn [negb].
  - rewrite write_file_isdir; [ done | ].
    cbn [dirs]. rewrite <- Hman. by apply isdir_loop_start.
  - rewrite write_file_ok; [ done | | apply isdir_iconset_added ].
    cbn [dirs]. rewrite <- Hman. by apply isdir_loop_start.
Qed.

(** Conversely to [main_ok], a run that completes started in an exportable
    world and leaves [after_export]. *)
Lemma main_inv (w w' : World) :
  main w = Ok w' -> exportable w = true /\ w' = after_export w.
Proof.
  intros Hrun. assert (Hx : exportable w = true).
  { rewrite <- main_is_ok. by rewrite Hrun. }
  split; [ exact Hx | ].
  rewrite main_ok in Hrun by exact Hx. by injection Hrun.
Qed.

(** The manifest text the encoder produces is the text written out in
    [expected_manifest]. *)
Lemma manifest_text_expected : manifest_text = expected_manifest.
Proof. vm_compute. reflexivity. Qed.

Lemma after_export_manifest (w : World) :
  files (after_export w) !! manifest_path = Some (Text expected_manifest).
Proof.
  rewrite <- manifest_text_expected. apply after_export_lookup.
  unfold export_writes. apply elem_of_cons. right.
  apply elem_of_app. right. by apply list_elem_of_singleton.
Qed.

End WrittenFiles.

Section ExportClaims.
Context {R : Rasterizer}.

(** C1: for every entry of [ios_sizes], the variant image the export
    writes is square and its side is the nominal size times the scale,
    rounded half up; the (83.5, 2) entry gives a 167x167 image. *)
Theorem variant_pixel_size (w : World) :
  exportable w = true ->
  exists w', main w = Ok w'
    /\ length ios_sizes = 15%nat
    /\ (forall base_size scale, (base_size, scale) ∈ ios_sizes ->
          exists img,
            files w' !! variant_path base_size scale = Some (PNG img)
            /\ (variant_path base_size scale, PNG img) ∈ writes w'
            /\ width img = round_half_up (to_Q base_size * inject_Z scale)%Q
            /\ height img = round_half_up (to_Q base_size * inject_Z scale)%Q)
    /\ (Float (167 # 2), 2) ∈ ios_sizes
    /\ round_half_up (to_Q (Float (167 # 2)) * inject_Z 2)%Q = 167.
Proof.
  intros Hx. exists (after_export w). split; [ by apply main_ok | ].
  split; [ reflexivity | ]. split.
  - intros base_size scale Hin. exists (variant_image (base_size, scale)).
    pose proof (variant_write_in _ Hin) as Hw. unfold variant_write in Hw.
    cbn [fst snd] in Hw.
    split; [ by apply after_export_lookup | ].
    split.
    { unfold after_export. cbn [writes]. apply elem_of_app. by right. }
    destruct (variant_image_shape (base_size, scale)) as (_ & Hwd & Hht).
    pose proof variant_size_rounds as Hr. rewrite forallb_forall in Hr.
    apply list_elem_of_In in Hin. apply Hr in Hin. apply Z.eqb_eq in Hin.
    cbn [fst snd] in *. by rewrite Hwd, Hht, Hin.
  - split; [ | reflexivity ].
    apply list_elem_of_In. vm_compute. tauto.
Qed.

(** C3: after the export the manifest lists one entry per [ios_sizes]
    entry, in that order, with pairwise distinct filenames, each naming a
    variant image the export wrote; the export writes sixteen image files
    and one manifest file.  The manifest file holds the text written out
    in [expected_manifest]: fifteen entries, in table order. *)
Theorem manifest_matches_files (w : World) :
  exportable w = true ->
  exists w' images new,
    main w = Ok w'
    /\ files w' !! manifest_path = Some (Text (dumps 2 (contents images)))
    /\ images = (fun spec : num * Z => descriptor spec.1 spec.2) <$> ios_sizes
    /\ length images = length ios_sizes
    /\ length images = 15%nat
    /\ NoDup (entry_filename <$> images)
    /\ (forall e, e ∈ images ->
          exists img,
            (iconset_dir +:+ "/" +:+ entry_filename e, PNG img) ∈ new
            /\ files w' !! (iconset_dir +:+ "/" +:+ entry_filename e) = Some (PNG img))
    /\ writes w' = writes w ++ new
    /\ NoDup (new.*1)
    /\ length (filter is_png new) = S (length ios_sizes)
    /\ filter (fun pc => negb (is_png pc)) new
       = [(manifest_path, Text (dumps 2 (contents images)))]
    /\ files w' !! manifest_path = Some (Text expected_manifest)
    /\ filter (fun pc => negb (is_png pc)) new
       = [(manifest_path, Text expected_manifest)]
    /\ entry_filename <$> images
       = [ "icon-20@1x.png"; "icon-20@2x.png"; "icon-20@3x.png";
           "icon-29@1x.png"; "icon-29@2x.png"; "icon-29@3x.png";
           "icon-40@1x.png"; "icon-40@2x.png"; "icon-40@3x.png";
           "icon-60@2x.png"; "icon-60@3x.png";
           "icon-76@1x.png"; "icon-76@2x.png";
           "icon-83.5@2x.png";
           "icon-1024@1x.png" ].
Proof.
  intros Hx. exists (after_export w), manifest_images, export_writes.
  split; [ by apply main_ok | ].
  split.
  { apply after_export_lookup. unfold export_writes.
    apply elem_of_cons. right. apply elem_of_app. right. by apply list_elem_of_singleton. }
  split; [ reflexivity | ].
  split; [ unfold manifest_images; by rewrite length_fmap | ].
  split; [ reflexivity | ].
  split; [ refine (bool_decide_unpack _ _); vm_compute; exact I | ].
  split.
  { intros e He. unfold manifest_images in He.
    apply list_elem_of_fmap in He as (spec & -> & Hin).
    exists (variant_image spec).
    assert (Hpath : iconset_dir +:+ "/" +:+ entry_filename (descriptor spec.1 spec.2)
                    = variant_path spec.1 spec.2) by reflexivity.
    rewrite Hpath. pose proof (variant_write_in _ Hin) as Hw.
    split; [ exact Hw | by apply after_export_lookup ]. }
  split; [ reflexivity | ].
  split; [ rewrite export_writes_paths; apply export_paths_NoDup | ].
  do 2 (split; [ reflexivity | ]).
  split; [ apply after_export_manifest | ].
  split; [ | reflexivity ].
  rewrite <- manifest_text_expected. reflexivity.
Qed.

(** C5: the entry (60, 3) is in the table; its variant file is a 180x180
    image named icon-60@3x.png, and its manifest entry is the dictionary
    with that filename, idiom iphone, scale 3x and size 60x60: the
    manifest file holds [expected_manifest], whose lines 62 to 67 are that
    entry. *)
Theorem entry_60_3 (w : World) :
  exportable w = true ->
  exists w' img,
    main w = Ok w'
    /\ ios_sizes !! 10%nat = Some (Int 60, 3)
    /\ variant_size (Int 60) 3 = 180
    /\ files w' !! "app-store/AppIcon.appiconset/icon-60@3x.png" = Some (PNG img)
    /\ ("app-store/AppIcon.appiconset/icon-60@3x.png", PNG img) ∈ writes w'
    /\ width img = 180 /\ height img = 180
    /\ descriptor (Int 60) 3
       = JDict [ ("filename", JStr "icon-60@3x.png");
                 ("idiom", JStr "iphone");
                 ("scale", JStr "3x");
                 ("size", JStr "60x60") ]
    /\ manifest_images !! 10%nat = Some (descriptor (Int 60) 3)
    /\ files w' !! manifest_path = Some (Text (dumps 2 (contents manifest_images)))
    /\ files w' !! manifest_path = Some (Text expected_manifest)
    /\ exists before after,
         length before = 62%nat
         /\ manifest_lines
            = before
                ++ [ "    {";
                     "      'filename': 'icon-60@3x.png',";
                     "      'idiom': 'iphone',";
                     "      'scale': '3x',";
                     "      'size': '60x60'";
                     "    }," ]
                ++ after.
Proof.
  intros Hx. exists (after_export w), (variant_image (Int 60, 3)).
  split; [ by apply main_ok | ].
  do 2 (split; [ reflexivity | ]).
  assert (Hin : (Int 60, 3) ∈ ios_sizes).
  { apply list_elem_of_In. vm_compute. tauto. }
  pose proof (variant_write_in _ Hin) as Hw.
  change (variant_write (Int 60, 3))
    with ("app-store/AppIcon.appiconset/icon-60@3x.png", PNG (variant_image (Int 60, 3)))
    in Hw.
  split; [ by apply after_export_lookup | ].
  split; [ unfold after_export; cbn [writes]; apply elem_of_app; by right | ].
  destruct (variant_image_shape (Int 60, 3)) as (_ & Hwd & Hht).
  do 2 (split; [ done | ]).
  do 2 (split; [ reflexivity | ]).
  split.
  { apply after_export_lookup. unfold export_writes.
    apply elem_of_cons. right. apply elem_of_app. right. by apply list_elem_of_singleton. }
  split; [ apply after_export_manifest | ].
  exists (take 62 manifest_lines), (drop 68 manifest_lines).
  split; reflexivity.
Qed.

(** C7: rendering and export are deterministic.  Two calls of
    [create_icon(S)], at a size where it returns, return pixel-identical
    images; a run followed by a
    second run, and any two runs from different worlds, leave the same
    manifest text. *)
Theorem render_and_export_deterministic (S : Z) (w v : World) :
  0 < S -> is_ok (create_icon S) = true ->
  exportable w = true -> exportable v = true ->
  (exists img, create_icon S = Ok img
     /\ forall img', create_icon S = Ok img' ->
          width img' = width img /\ height img' = height img
          /\ forall x y, getpixel img' x y = getpixel img x y)
  /\ exists w1 w2 v1 text,
       main w = Ok w1 /\ main w1 = Ok w2 /\ main v = Ok v1
       /\ files w1 !! manifest_path = Some (Text text)
       /\ files w2 !! manifest_path = Some (Text text)
       /\ files v1 !! manifest_path = Some (Text text).
Proof.
  intros HS Hok Hw Hv. rewrite create_icon_is_ok in Hok. split.
  - exists (rendered S). split; [ by apply create_icon_ok | ].
    intros img' Himg. rewrite create_icon_ok in Himg by done.
    injection Himg as <-. done.
  - exists (after_export w), (after_export (after_export w)), (after_export v),
      manifest_text.
    assert (Hm : forall u, files (after_export u) !! manifest_path
                           = Some (Text manifest_text)).
    { intros u. apply after_export_lookup. unfold export_writes.
      apply elem_of_cons. right. apply elem_of_app. right.
      by apply list_elem_of_singleton. }
    split; [ by apply main_ok | ].
    split; [ apply main_ok; by apply exportable_after_export | ].
    split; [ by apply main_ok | ].
    by rewrite !Hm.
Qed.

End ExportClaims.

Section ErrorsAndLabels.
Context {R : Rasterizer}.

(** C2, as the code has it: [create_icon] has no size check of its own.
    A negative size fails with the [ValueError] of [Image.new], a size of
    2^31 or more with [OverflowError], a canvas that cannot be allocated
    with [MemoryError]; on every other size, 0 included, it returns an
    image of that size. *)
Theorem create_icon_failures (size : Z) :
  (size < 0 ->
   create_icon size = Raise (ValueError "Width and height must be >= 0"))
  /\ (2 ^ 31 <= size ->
      create_icon size
      = Raise OverflowError)
  /\ (0 <= size < 2 ^ 31 -> can_allocate size size = false ->
      create_icon size = Raise MemoryError)
  /\ (0 <= size < 2 ^ 31 -> can_allocate size size = true ->
      exists img, create_icon size = Ok img
                  /\ width img = size /\ height img = size)
  /\ (is_ok (create_icon size) = true
      <-> 0 <= size < 2 ^ 31 /\ can_allocate size size = true).
Proof.
  split; [ apply create_icon_negative | ].
  split; [ apply create_icon_overflow | ].
  split; [ apply create_icon_no_memory | ].
  split.
  - intros Hs Hmem. exists (rendered size).
    split; [ by apply create_icon_ok, renderable_intro | ].
    apply rendered_shape.
  - rewrite create_icon_is_ok. split.
    + apply renderable_inv.
    + intros [Hs Hmem]. by apply renderable_intro.
Qed.

(** C4: the idiom is iphone for a nominal size equal to 20, 29, 40 or 60,
    ipad for one equal to 76 or 83.5, and ios-marketing for any other;
    in the table only 1024 is of the last kind. *)
Theorem idiom_classification (base_size : num) :
  ((to_Q base_size == 20 \/ to_Q base_size == 29
    \/ to_Q base_size == 40 \/ to_Q base_size == 60)%Q ->
   idiom_of base_size = "iphone")
  /\ ((to_Q base_size == 76 \/ to_Q base_size == 167 # 2)%Q ->
      idiom_of base_size = "ipad")
  /\ (~ (to_Q base_size == 20 \/ to_Q base_size == 29
         \/ to_Q base_size == 40 \/ to_Q base_size == 60)%Q ->
      ~ (to_Q base_size == 76 \/ to_Q base_size == 167 # 2)%Q ->
      idiom_of base_size = "ios-marketing")
  /\ (forall scale,
        get "idiom" (descriptor base_size scale) = Some (JStr (idiom_of base_size)))
  /\ (fun spec : num * Z => (spec.1, idiom_of spec.1)) <$> ios_sizes
     = [ (Int 20, "iphone"); (Int 20, "iphone"); (Int 20, "iphone");
         (Int 29, "iphone"); (Int 29, "iphone"); (Int 29, "iphone");
         (Int 40, "iphone"); (Int 40, "iphone"); (Int 40, "iphone");
         (Int 60, "iphone"); (Int 60, "iphone");
         (Int 76, "ipad"); (Int 76, "ipad");
         (Float (167 # 2), "ipad");
         (Int 1024, "ios-marketing") ].
Proof.
  split; [ | split; [ | split; [ | split; reflexivity ] ] ].
  all: unfold idiom_of, contains, existsb, eqb; cbn [to_Q].
  all: set (q := to_Q base_size); intros; num_cases; cbn [orb]; try reflexivity.
  all: exfalso; unfold Qeq in *; cbn [Qnum Qden inject_Z] in *; lia.
Qed.

(** C10: file names and size labels carry the nominal size as Python
    prints it: 83.5 keeps its decimal point, integers have none. *)
Theorem labels_keep_literal_form :
  ios_sizes !! 13%nat = Some (Float (167 # 2), 2)
  /\ manifest_images !! 13%nat
     = Some (JDict [ ("filename", JStr "icon-83.5@2x.png");
                     ("idiom", JStr "ipad");
                     ("scale", JStr "2x");
                     ("size", JStr "83.5x83.5") ])
  /\ ios_sizes !! 1%nat = Some (Int 20, 2)
  /\ manifest_images !! 1%nat
     = Some (JDict [ ("filename", JStr "icon-20@2x.png");
                     ("idiom", JStr "iphone");
                     ("scale", JStr "2x");
                     ("size", JStr "20x20") ])
  /\ (forall (n scale : Z),
        variant_filename (Int n) scale
        = "icon-" +:+ str_int n +:+ "@" +:+ str_int scale +:+ "x.png"
        /\ get "size" (descriptor (Int n) scale)
           = Some (JStr (str_int n +:+ "x" +:+ str_int n)))
  /\ entry_filename <$> manifest_images
     = [ "icon-20@1x.png"; "icon-20@2x.png"; "icon-20@3x.png";
         "icon-29@1x.png"; "icon-29@2x.png"; "icon-29@3x.png";
         "icon-40@1x.png"; "icon-40@2x.png"; "icon-40@3x.png";
         "icon-60@2x.png"; "icon-60@3x.png";
         "icon-76@1x.png"; "icon-76@2x.png";
         "icon-83.5@2x.png";
         "icon-1024@1x.png" ].
Proof.
  repeat split; reflexivity.
Qed.

End ErrorsAndLabels.

(** ** The claims on concrete inputs *)

(** C2 as stated fails at size 0: [create_icon(0)] returns an empty image
    instead of raising. *)
Lemma create_icon_zero_accepted :
  (exists img, @create_icon sample_rasterizer 0 = Ok img
               /\ width img = 0 /\ height img = 0)
  /\ ~ rejects_nonpositive sample_rasterizer.
Proof.
  assert (Hzero : @create_icon sample_rasterizer 0 = Ok (@rendered sample_rasterizer 0))
    by (apply create_icon_ok; vm_compute; reflexivity).
  split.
  - exists (@rendered sample_rasterizer 0). split; [ exact Hzero | ].
    apply rendered_shape.
  - intros Hclaim. destruct (Hclaim 0) as [Hrej _].
    destruct Hrej as [msg Hmsg]; [ lia | ]. rewrite Hzero in Hmsg. discriminate.
Qed.

(** C6 as stated fails at size 2^31: [Image.new] raises [OverflowError],
    whatever the rasteriser and the memory at hand. *)
Lemma create_icon_size_overflows :
  (forall R : Rasterizer,
      @create_icon R (2 ^ 31)
      = Raise OverflowError)
  /\ ~ (forall S : Z, 0 < S ->
          exists img, @create_icon sample_rasterizer S = Ok img
                      /\ mode img = "RGB" /\ width img = S /\ height img = S).
Proof.
  split.
  - intros R. apply create_icon_overflow. lia.
  - intros Hclaim. destruct (Hclaim (2 ^ 31)) as (img & Himg & _); [ lia | ].
    rewrite create_icon_overflow in Himg by lia. discriminate.
Qed.

Lemma create_icon_size_witness :
  0 < 64 /\ 64 < 2 ^ 31 /\ @can_allocate sample_rasterizer 64 64 = true
  /\ exists img, @create_icon sample_rasterizer 64 = Ok img
                 /\ mode img = "RGB" /\ width img = 64 /\ height img = 64.
Proof.
  split; [ lia | ]. split; [ lia | ]. split; [ reflexivity | ].
  apply (create_icon_size 64); [ lia | lia | reflexivity ].
Defined.

Lemma create_icon_two_colours_witness :
  0 < 64 /\ is_ok (@create_icon sample_rasterizer 64) = true
  /\ exists img, @create_icon sample_rasterizer 64 = Ok img
                 /\ getrgb background = Some (15, 23, 42)
                 /\ getrgb accent = Some (34, 211, 168)
                 /\ forall x y, 0 <= x < width img -> 0 <= y < height img ->
                                getpixel img x y = (15, 23, 42)
                                \/ getpixel img x y = (34, 211, 168).
Proof.
  split; [ lia | ]. split; [ vm_compute; reflexivity | ].
  apply (create_icon_two_colours 64); [ lia | vm_compute; reflexivity ].
Defined.

Lemma create_icon_phases_witness :
  is_ok (@create_icon_draw sample_rasterizer 64) = true
  /\ exists d, @create_icon_draw sample_rasterizer 64 = Ok d
               /\ length (calls d) = 19%nat.
Proof.
  split; [ vm_compute; reflexivity | ].
  destruct (@create_icon_phases sample_rasterizer 64) as (d & Hd & _ & _ & _ & _ & Hlen & _);
    [ vm_compute; reflexivity | ].
  exists d. split; [ exact Hd | exact Hlen ].
Defined.

Lemma variant_pixel_size_witness :
  @exportable sample_rasterizer fresh_world = true
  /\ exists w', @main sample_rasterizer fresh_world = Ok w'
                /\ length ios_sizes = 15%nat.
Proof.
  split; [ vm_compute; reflexivity | ].
  destruct (@variant_pixel_size sample_rasterizer fresh_world) as (w' & Hw' & Hlen & _);
    [ vm_compute; reflexivity | ].
  exists w'. split; [ exact Hw' | exact Hlen ].
Defined.

Lemma manifest_matches_files_witness :
  @exportable sample_rasterizer fresh_world = true
  /\ exists w' images, @main sample_rasterizer fresh_world = Ok w'
                       /\ length images = 15%nat
                       /\ NoDup (entry_filename <$> images).
Proof.
  split; [ vm_compute; reflexivity | ].
  destruct (@manifest_matches_files sample_rasterizer fresh_world)
    as (w' & images & new & Hw' & _ & _ & _ & Hlen & Hnd & _);
    [ vm_compute; reflexivity | ].
  exists w', images. split; [ exact Hw' | split; [ exact Hlen | exact Hnd ] ].
Defined.

Lemma entry_60_3_witness :
  @exportable sample_rasterizer fresh_world = true
  /\ exists w' img, @main sample_rasterizer fresh_world = Ok w'
                    /\ width img = 180 /\ height img = 180.
Proof.
  split; [ vm_compute; reflexivity | ].
  destruct (@entry_60_3 sample_rasterizer fresh_world)
    as (w' & img & Hw' & _ & _ & _ & _ & Hwd & Hht & _);
    [ vm_compute; reflexivity | ].
  exists w', img. split; [ exact Hw' | split; [ exact Hwd | exact Hht ] ].
Defined.

Lemma render_and_export_deterministic_witness :
  0 < 64 /\ is_ok (@create_icon sample_rasterizer 64) = true
  /\ @exportable sample_rasterizer fresh_world = true /\ @exportable sample_rasterizer occupied_world = true
  /\ exists w1 v1 text,
       @main sample_rasterizer fresh_world = Ok w1
       /\ @main sample_rasterizer occupied_world = Ok v1
       /\ files w1 !! manifest_path = Some (Text text)
       /\ files v1 !! manifest_path = Some (Text text).
Proof.
  split; [ lia | ]. split; [ vm_compute; reflexivity | ].
  split; [ vm_compute; reflexivity | ].
  split; [ vm_compute; reflexivity | ].
  destruct (@render_and_export_deterministic sample_rasterizer 64 fresh_world occupied_world)
    as (_ & w1 & w2 & v1 & text & Hw1 & _ & Hv1 & Hf1 & _ & Hf2);
    [ lia | vm_compute; reflexivity | vm_compute; reflexivity
      | vm_compute; reflexivity | ].
  exists w1, v1, text. repeat split; assumption.
Defined.

(** ** Further properties of the renderer *)

Section RendererGeometry.
Context {R : Rasterizer}.

Lemma apply_call_pixel (i : Image) (c : call) (x y : Z) :
  getpixel (apply_call i c) x y
  = if covered c x y then ink (fill_of c) else getpixel i x y.
Proof. by destruct c. Qed.

(** Calls that all use one ink: a pixel takes that ink when some call
    covers it, and is kept otherwise. *)
Lemma foldl_one_ink (l : list call) (i : Image) (colour : rgb) (x y : Z) :
  Forall (fun c => ink (fill_of c) = colour) l ->
  getpixel (foldl apply_call i l) x y
  = if existsb (fun c => covered c x y) l then colour else getpixel i x y.
Proof.
  revert i. induction l as [ | c l IH ]; intros i Hl; [ reflexivity | ].
  apply Forall_cons in Hl as [Hc Hl']. cbn [foldl existsb].
  rewrite IH by done. rewrite apply_call_pixel, Hc.
  destruct (covered c x y); cbn [orb]; [ | reflexivity ].
  by destruct (existsb (fun c0 => covered c0 x y) l).
Qed.

Lemma trunc_scaled_width (size : Z) :
  0 <= size -> trunc (24 * (inject_Z size / 1024))%Q = 24 * size / 1024.
Proof.
  intros Hs. unfold trunc, Qdiv, Qmult, Qinv, inject_Z. cbn [Qnum Qden].
  change (Z.pos (1 * (1 * 1024))) with 1024.
  rewrite Z.quot_div_nonneg by lia. f_equal. lia.
Qed.

Lemma scaled_in_canvas (x size : Z) :
  0 <= x <= 1024 -> 0 <= size ->
  (0 <= scaled x (inject_Z size / 1024) /\ scaled x (inject_Z size / 1024) <= inject_Z size)%Q.
Proof.
  intros Hx Hs. unfold scaled, Qle, Qdiv, Qmult, Qinv, inject_Z. cbn [Qnum Qden].
  change (Z.pos (1 * (1 * 1024))) with 1024. split; nia.
Qed.

Lemma disk_box_nested (s : Q) (cx cy r r' : Z) :
  (0 <= s)%Q -> 0 <= r' <= r ->
  box_inside (disk_box s cx cy r') (disk_box s cx cy r)
  /\ concentric (disk_box s cx cy r') (disk_box s cx cy r).
Proof.
  intros Hs Hr. unfold box_inside, concentric, disk_box.
  assert (Hmono : forall a b, a <= b -> (scaled a s <= scaled b s)%Q).
  { intros a b Hab. apply Qle_bool_iff. by apply scaled_mono. }
  repeat split; try (apply Hmono; lia).
  all: unfold scaled; rewrite <- !Qmult_plus_distr_l, <- !inject_Z_plus;
    apply Qmult_comp; [ | reflexivity ]; apply inject_Z_injective; lia.
Qed.

Lemma bonds_in_canvas :
  Forall (fun b : (Z * Z) * (Z * Z) =>
            0 <= b.1.1 <= 1024 /\ 0 <= b.1.2 <= 1024
            /\ 0 <= b.2.1 <= 1024 /\ 0 <= b.2.2 <= 1024) bonds.
Proof. unfold bonds. repeat constructor; cbn [fst snd]; lia. Qed.

Lemma circles_in_canvas :
  Forall (fun c : Z * Z * Z =>
            inner_r <= c.2
            /\ 0 <= c.1.1 - c.2 /\ c.1.1 + c.2 <= 1024
            /\ 0 <= c.1.2 - c.2 /\ c.1.2 + c.2 <= 1024) circles.
Proof. unfold circles, inner_r. repeat constructor; cbn [fst snd]; lia. Qed.

(** X1: in every run that gets to draw, every coordinate of every drawing
    call lies between 0 and the size: the design never reaches outside the
    canvas. *)
Theorem calls_stay_in_canvas (size : Z) :
  is_ok (create_icon_draw size) = true ->
  exists d, create_icon_draw size = Ok d
            /\ forall c q, c ∈ calls d -> In q (call_coords c) ->
                           (0 <= q /\ q <= inject_Z size)%Q.
Proof.
  intros Hok. rewrite create_icon_draw_is_ok in Hok.
  pose proof (renderable_inv _ Hok) as [[Hs _] _].
  exists (mkDraw (rendered size) (icon_calls size)).
  split; [ by apply create_icon_draw_ok | ].
  cbn [calls]. unfold icon_calls. cbv zeta.
  set (s := (inject_Z size / 1024)%Q).
  intros c q Hc Hq.
  assert (Hin : forall x, 0 <= x <= 1024 -> (0 <= scaled x s /\ scaled x s <= inject_Z size)%Q).
  { intros x Hx. by apply scaled_in_canvas. }
  pose proof bonds_in_canvas as Hb. pose proof circles_in_canvas as Hci.
  rewrite Forall_forall in Hb. rewrite Forall_forall in Hci. unfold inner_r in Hci.
  rewrite !elem_of_app, !list_elem_of_fmap in Hc.
  destruct Hc as [ (b & -> & Hb') | [ (ci & -> & Hc') | (ci & -> & Hc') ] ].
  - specialize (Hb b Hb'). destruct b as [[x1 y1] [x2 y2]]. cbn [fst snd] in Hb.
    cbn in Hq. destruct Hq as [<- | [<- | [<- | [<- | [] ] ] ] ]; apply Hin; lia.
  - specialize (Hci ci Hc'). destruct ci as [[cx cy] r]. cbn [fst snd] in Hci.
    cbn in Hq. destruct Hq as [<- | [<- | [<- | [<- | [] ] ] ] ]; apply Hin; lia.
  - specialize (Hci ci Hc'). destruct ci as [[cx cy] r]. cbn [fst snd] in Hci.
    cbn in Hq. unfold inner_r in Hq.
    destruct Hq as [<- | [<- | [<- | [<- | [] ] ] ] ]; apply Hin; lia.
Qed.

(** X2: the width passed for every bond line is the integer part of
    24 * size / 1024; it is 0 for every size below 43 and at least 1 from
    43 on. *)
Theorem line_width_truncates (size : Z) :
  is_ok (create_icon_draw size) = true ->
  exists d, create_icon_draw size = Ok d
            /\ forall xy fill lw, Line xy fill lw ∈ calls d ->
                 lw = 24 * size / 1024
                 /\ (size < 43 -> lw = 0)
                 /\ (43 <= size -> 1 <= lw).
Proof.
  intros Hok. rewrite create_icon_draw_is_ok in Hok.
  pose proof (renderable_inv _ Hok) as [[Hs _] _].
  exists (mkDraw (rendered size) (icon_calls size)).
  split; [ by apply create_icon_draw_ok | ].
  cbn [calls]. unfold icon_calls. cbv zeta.
  intros xy fill lw Hin.
  assert (Hlw : lw = 24 * size / 1024).
  { rewrite <- (trunc_scaled_width size Hs).
    rewrite !elem_of_app, !list_elem_of_fmap in Hin.
    destruct Hin as [ (b & Hb & _) | [ (ci & Hc & _) | (ci & Hc & _) ] ].
    - destruct b as [[x1 y1] [x2 y2]]. by injection Hb.
    - by destruct ci as [[cx cy] r].
    - by destruct ci as [[cx cy] r]. }
  split; [ exact Hlw | ]. subst lw. split; intros Hsz.
  - apply Z.div_small. lia.
  - apply Z.div_le_lower_bound; lia.
Qed.

(** X3: the k-th inner disk belongs to the k-th outer disk: they are the
    calls 7 + k and 13 + k, their boxes have the same centre, and the
    inner box lies within the outer one. *)
Theorem inner_disk_within_outer (size : Z) (k : nat) (c : Z * Z * Z) :
  is_ok (create_icon_draw size) = true -> circles !! k = Some c ->
  exists d outer inner,
    create_icon_draw size = Ok d
    /\ calls d !! (7 + k)%nat = Some (Ellipse outer accent)
    /\ calls d !! (13 + k)%nat = Some (Ellipse inner background)
    /\ box_inside inner outer
    /\ concentric inner outer.
Proof.
  intros Hok Hk. rewrite create_icon_draw_is_ok in Hok.
  pose proof (renderable_inv _ Hok) as [[Hs _] _].
  destruct c as [[cx cy] r].
  set (s := (inject_Z size / 1024)%Q).
  exists (mkDraw (rendered size) (icon_calls size)),
    (disk_box s cx cy r), (disk_box s cx cy inner_r).
  split; [ by apply create_icon_draw_ok | ].
  cbn [calls]. unfold icon_calls. cbv zeta. fold s.
  assert (Hlen : length circles = 6%nat) by reflexivity.
  pose proof (lookup_lt_Some _ _ _ Hk) as Hlt.
  split; [ | split ].
  - rewrite lookup_app_r by (rewrite length_fmap; cbn; lia).
    rewrite length_fmap. replace (7 + k - length bonds)%nat with k by (cbn; lia).
    rewrite lookup_app_l by (rewrite length_fmap; lia).
    by rewrite list_lookup_fmap, Hk.
  - rewrite lookup_app_r by (rewrite length_fmap; cbn; lia).
    rewrite length_fmap.
    rewrite lookup_app_r by (rewrite length_fmap; cbn; lia).
    rewrite length_fmap.
    replace (13 + k - length bonds - length circles)%nat with k by (cbn; lia).
    by rewrite list_lookup_fmap, Hk.
  - apply disk_box_nested; [ by apply scale_nonneg | ].
    pose proof circles_in_canvas as Hci. rewrite Forall_forall in Hci.
    apply list_elem_of_lookup_2 in Hk. specialize (Hci _ Hk).
    cbn [fst snd] in Hci. unfold inner_r in *. lia.
Qed.

(** X4: the colour of each pixel, by layers: background where some inner
    disk covers it; otherwise accent where some bond line or outer disk
    covers it; otherwise background. *)
Theorem pixel_by_layers (size x y : Z) :
  is_ok (create_icon_draw size) = true ->
  exists d,
    create_icon_draw size = Ok d
    /\ create_icon size = Ok (im d)
    /\ getpixel (im d) x y
       = if existsb (fun c => covered c x y) (filter is_inner (calls d))
         then (15, 23, 42)
         else if existsb (fun c => covered c x y)
                         (filter (fun c => is_line c || is_outer c) (calls d))
              then (34, 211, 168)
              else (15, 23, 42).
Proof.
  intros Hok. rewrite create_icon_draw_is_ok in Hok.
  pose proof (renderable_inv _ Hok) as [[Hs _] _].
  exists (mkDraw (rendered size) (icon_calls size)).
  split; [ by apply create_icon_draw_ok | ].
  split; [ by apply create_icon_ok | ].
  cbn [im calls]. unfold rendered, icon_calls. cbv zeta.
  set (s := (inject_Z size / 1024)%Q). set (lw := trunc (24 * s)%Q).
  assert (Hinner : filter is_inner
                     ((bond_call s lw <$> bonds) ++ (outer_call s <$> circles)
                        ++ (inner_call s <$> circles))
                   = inner_call s <$> circles) by reflexivity.
  assert (Hfront : filter (fun c => is_line c || is_outer c)
                     ((bond_call s lw <$> bonds) ++ (outer_call s <$> circles)
                        ++ (inner_call s <$> circles))
                   = (bond_call s lw <$> bonds) ++ (outer_call s <$> circles))
    by reflexivity.
  rewrite Hinner, Hfront. rewrite app_assoc, foldl_app.
  rewrite (foldl_one_ink _ _ (15, 23, 42)).
  2:{ rewrite Forall_fmap. apply Forall_forall. by intros [[cx cy] r] _. }
  rewrite (foldl_one_ink _ _ (34, 211, 168)).
  2:{ apply Forall_app. split; rewrite Forall_fmap; apply Forall_forall.
      - by intros [[x1 y1] [x2 y2]] _.
      - by intros [[cx cy] r] _. }
  reflexivity.
Qed.

End RendererGeometry.

(** ** Further properties of the export *)

Section ExportEffects.
Context {R : Rasterizer}.


Lemma after_export_other (w : World) (p : string) :
  p ∉ export_paths -> files (after_export w) !! p = files w !! p.
Proof.
  intros Hp. unfold after_export. cbn [files].
  apply foldl_insert_notin. by rewrite export_writes_paths.
Qed.

Lemma variant_image_1024 (spec : num * Z) :
  variant_size spec.1 spec.2 = 1024 -> variant_image spec = rendered 1024.
Proof. intros Hsz. unfold variant_image. by rewrite Hsz, Z.eqb_refl. Qed.

Lemma variant_image_resampled (spec : num * Z) (x y : Z) :
  variant_size spec.1 spec.2 ≠ 1024 ->
  getpixel (variant_image spec) x y
  = lanczos (rendered 1024) (variant_size spec.1 spec.2, variant_size spec.1 spec.2) x y.
Proof.
  intros Hsz. unfold variant_image.
  destruct (variant_size spec.1 spec.2 =? 1024) eqn:E; [ | reflexivity ].
  apply Z.eqb_eq in E. contradiction.
Qed.

Lemma primary_write_in : (primary_path, PNG (rendered 1024)) ∈ export_writes.
Proof. unfold export_writes. apply elem_of_cons. by left. Qed.

Lemma manifest_write_in : (manifest_path, Text manifest_text) ∈ export_writes.
Proof.
  unfold export_writes. apply elem_of_cons. right.
  apply elem_of_app. right. by apply list_elem_of_singleton.
Qed.

(** X5: a run completes only if [app-store] is a directory, none of the
    seventeen target paths is a directory, and the icon-set path is a
    directory or does not exist. *)
Theorem export_success_condition (w : World) :
  is_ok (main w) = true ->
  os.isdir "app-store" w = true
  /\ os.isdir primary_path w = false
  /\ (os.isdir iconset_dir w = true \/ os.exists_ iconset_dir w = false)
  /\ (forall base_size scale, (base_size, scale) ∈ ios_sizes ->
        os.isdir (variant_path base_size scale) w = false)
  /\ os.isdir manifest_path w = false.
Proof.
  rewrite main_is_ok. intros Hx.
  apply exportable_inv in Hx as (_ & _ & Happ & Hprim & Hset & Hvar & Hman).
  apply orb_true_iff in Hset. rewrite negb_true_iff in Hset.
  rewrite forallb_forall in Hvar.
  repeat split; try done.
  intros base_size scale Hin. apply list_elem_of_In in Hin.
  specialize (Hvar _ Hin). by apply negb_true_iff in Hvar.
Qed.

(** X6: where the working directory has no [app-store] entry, the run
    fails, and once the 1024 render has returned it fails at the first
    save with FileNotFoundError: the script does not create [app-store]
    itself. *)
Theorem export_needs_app_store (w : World) :
  os.exists_ "app-store" w = false ->
  os.isdir primary_path w = false ->
  is_ok (main w) = false
  /\ (is_ok (create_icon 1024) = true ->
      main w = Raise (FileNotFoundError primary_path)).
Proof.
  intros Hex Hprim.
  assert (Hrun : is_ok (create_icon 1024) = true ->
                 main w = Raise (FileNotFoundError primary_path)).
  { rewrite create_icon_is_ok. intros H1024.
    unfold main. rewrite create_icon_ok, bind_Ok by done.
    unfold save, write_file, os.check_parent. rewrite Hprim.
    assert (Hdir : os.dirname primary_path = "app-store") by reflexivity.
    rewrite Hdir, Hex.
    unfold os.exists_ in Hex. apply orb_false_elim in Hex as [Hd _]. rewrite Hd.
    reflexivity. }
  split; [ | exact Hrun ].
  destruct (is_ok (create_icon 1024)) eqn:Hicon.
  - by rewrite Hrun.
  - unfold main. by apply is_ok_bind_failed.
Qed.


(** X8: running the script again changes nothing: the second run
    completes and leaves the same files and directories as the first. *)
Theorem rerun_changes_nothing (w : World) :
  exportable w = true ->
  exists w1 w2, main w = Ok w1 /\ main w1 = Ok w2
                /\ files w2 = files w1 /\ dirs w2 = dirs w1.
Proof.
  intros Hx. exists (after_export w), (after_export (after_export w)).
  split; [ by apply main_ok | ].
  split; [ apply main_ok; by apply exportable_after_export | ].
  split.
  - apply map_eq. intros p. destruct (decide (p ∈ export_paths)) as [Hin | Hout].
    + rewrite <- export_writes_paths in Hin.
      apply list_elem_of_fmap in Hin as ([p' c] & -> & Hin). cbn [fst].
      by rewrite !(after_export_lookup _ p' c).
    + by rewrite after_export_other.
  - unfold after_export. cbn [dirs].
    by rewrite (assoc_L (∪)), (idemp_L (∪)).
Qed.

(** X9: every variant is made from the image [create_icon(1024)] returns:
    the 1024@1x file holds the very image of the primary icon, and every
    other variant holds, pixel for pixel, what the Lanczos filter gives for
    that image at the variant's size. *)
Theorem variants_come_from_1024 (w : World) :
  exportable w = true ->
  exists w' icon,
    main w = Ok w'
    /\ create_icon 1024 = Ok icon
    /\ files w' !! primary_path = Some (PNG icon)
    /\ files w' !! variant_path (Int 1024) 1 = Some (PNG icon)
    /\ forall base_size scale,
         (base_size, scale) ∈ ios_sizes -> variant_size base_size scale ≠ 1024 ->
         exists img,
           files w' !! variant_path base_size scale = Some (PNG img)
           /\ forall x y,
                getpixel img x y
                = lanczos icon (variant_size base_size scale, variant_size base_size scale) x y.
Proof.
  intros Hx. exists (after_export w), (rendered 1024).
  split; [ by apply main_ok | ].
  split; [ apply create_icon_ok; by apply exportable_inv in Hx as (H1024 & _) | ].
  split; [ apply after_export_lookup, primary_write_in | ].
  split.
  - assert (Hin : (Int 1024, 1) ∈ ios_sizes).
    { apply list_elem_of_In. unfold ios_sizes. cbn [In]. tauto. }
    pose proof (variant_write_in _ Hin) as Hw. unfold variant_write in Hw.
    rewrite variant_image_1024 in Hw by reflexivity.
    by apply after_export_lookup.
  - intros base_size scale Hin Hsz. exists (variant_image (base_size, scale)).
    split; [ apply after_export_lookup; by apply (variant_write_in (base_size, scale)) | ].
    intros x y. by apply (variant_image_resampled (base_size, scale)).
Qed.


End ExportEffects.

(** ** Further properties of the number handling *)

(** X10: [int(base_size * scale)] truncates: for a float nominal size and
    a scale that are binary64 values whose product is a non-negative
    binary64 value (so that the float product is exact), the pixel size is
    the floor of the product, never more than the half-up rounding; 83.5
    at scale 1 would give 83, where rounding gives 84. *)
Theorem variant_size_truncates (q : Q) (scale : Z) :
  is_binary64 q = true ->
  is_binary64 (inject_Z scale) = true ->
  is_binary64 (q * inject_Z scale) = true ->
  (0 <= q * inject_Z scale)%Q ->
  variant_size (Float q) scale = Qfloor (q * inject_Z scale)%Q
  /\ variant_size (Float q) scale <= round_half_up (q * inject_Z scale)%Q
  /\ variant_size (Float (167 # 2)) 1 = 83
  /\ round_half_up ((167 # 2) * inject_Z 1)%Q = 84.
Proof.
  intros _ _ _ Hpos.
  assert (Hfloor : variant_size (Float q) scale = Qfloor (q * inject_Z scale)%Q).
  { unfold variant_size, mul, int, to_Q, trunc.
    set (p := (q * inject_Z scale)%Q) in *.
    destruct p as [n d]. unfold Qle in Hpos. cbn [Qnum Qden Qfloor] in *.
    apply Z.quot_div_nonneg; lia. }
  split; [ exact Hfloor | ]. split; [ | split; reflexivity ].
  rewrite Hfloor. unfold round_half_up. apply Qfloor_resp_le.
  rewrite <- (Qplus_0_r (q * inject_Z scale)) at 1.
  apply Qplus_le_r. discriminate.
Qed.

Lemma eqb_trans_l (a b c : num) : eqb a b = true -> eqb a c = eqb b c.
Proof.
  unfold eqb. intros Hab. apply Qeq_bool_iff in Hab.
  destruct (Qeq_bool (to_Q b) (to_Q c)) eqn:Hbc.
  - apply Qeq_bool_iff. apply Qeq_bool_iff in Hbc. by rewrite Hab.
  - destruct (Qeq_bool (to_Q a) (to_Q c)) eqn:Hac; [ | reflexivity ].
    apply Qeq_bool_iff in Hac. apply Qeq_bool_neq in Hbc.
    exfalso. apply Hbc. by rewrite <- Hab.
Qed.

Lemma contains_eqb (a b : num) (l : list num) :
  eqb a b = true -> contains a l = contains b l.
Proof.
  intros Hab. unfold contains. induction l as [ | c l IH ]; [ reflexivity | ].
  cbn [existsb]. by rewrite IH, (eqb_trans_l a b c).
Qed.

(** X12: the idiom depends on the numeric value only: two nominal sizes
    that Python's [==] holds equal, such as 20 and 20.0, get the same
    idiom. *)
Theorem idiom_respects_equality (a b : num) :
  eqb a b = true -> idiom_of a = idiom_of b.
Proof.
  intros Hab. unfold idiom_of. by rewrite !(contains_eqb a b).
Qed.

(** ** The errors a run can end in *)

Section ExportErrors.
Context {R : Rasterizer}.

Lemma bind_raises {A B} (r : result A) (f : A -> result B) (e : exn) :
  (r ≫= f) = Raise e -> r = Raise e \/ exists a, r = Ok a /\ f a = Raise e.
Proof.
  destruct r as [a | e']; intros Hr.
  - right. exists a. split; [ reflexivity | exact Hr ].
  - left. by injection Hr as ->.
Qed.

Lemma check_parent_raises (p : string) (w : World) (e : exn) :
  os.check_parent p w = Raise e -> is_argument_error e = false.
Proof.
  unfold os.check_parent.
  destruct (String.eqb (os.dirname p) EmptyString || os.isdir (os.dirname p) w);
    [ done | ].
  destruct (os.exists_ (os.dirname p) w); by intros [= <-].
Qed.

Lemma write_file_raises (p : string) (c : file) (w : World) (e : exn) :
  write_file p c w = Raise e -> is_argument_error e = false.
Proof.
  unfold write_file. destruct (os.isdir p w); [ by intros [= <-] | ].
  intros Hr. apply bind_raises in Hr as [Hr | (a & _ & Hr)]; [ | done ].
  by apply check_parent_raises in Hr.
Qed.

Lemma mkdir_raises (p : string) (w : World) (e : exn) :
  os.mkdir p w = Raise e -> is_argument_error e = false.
Proof.
  unfold os.mkdir. destruct (os.exists_ p w); [ by intros [= <-] | ].
  intros Hr. apply bind_raises in Hr as [Hr | (a & _ & Hr)]; [ | done ].
  by apply check_parent_raises in Hr.
Qed.

Lemma makedirs_go_raises (fuel : nat) (name : string) (w : World) (e : exn) :
  os.makedirs_go fuel name w = Raise e -> is_argument_error e = false.
Proof.
  revert name w e. induction fuel as [ | fuel IH ]; intros name w e Hr;
    cbn [os.makedirs_go] in Hr;
    apply bind_raises in Hr as [Hr | (w1 & _ & Hr)].
  - by destruct (negb (String.eqb (os.dirname name) EmptyString)
                 && negb (os.exists_ (os.dirname name) w)).
  - destruct (os.mkdir name w1) as [w2 | e'] eqn:Hm; [ done | ].
    destruct (os.isdir name w1); [ done | ]. injection Hr as <-.
    by apply mkdir_raises in Hm.
  - destruct (negb (String.eqb (os.dirname name) EmptyString)
              && negb (os.exists_ (os.dirname name) w)); [ | done ].
    destruct (os.makedirs_go fuel (os.dirname name) w) as [w1 | e'] eqn:Hp; [ done | ].
    apply IH in Hp. destruct e'; try done; by injection Hr as <-.
  - destruct (os.mkdir name w1) as [w2 | e'] eqn:Hm; [ done | ].
    destruct (os.isdir name w1); [ done | ]. injection Hr as <-.
    by apply mkdir_raises in Hm.
Qed.

(** At 1024 the renderer can fail only for want of memory. *)
Lemma create_icon_1024_raises (e : exn) :
  create_icon 1024 = Raise e -> e = MemoryError.
Proof.
  destruct (can_allocate 1024 1024) eqn:Hmem.
  - rewrite create_icon_ok by (apply renderable_intro; [ lia | done ]). done.
  - rewrite create_icon_no_memory by (lia || done). by intros [= <-].
Qed.

(** At a size from 1 to 2^31 - 1 resizing can fail only for want of
    memory. *)
Lemma resize_raises (i : Image) (size : Z) (e : exn) :
  0 < size < 2 ^ 31 ->
  resize i (size, size) = Raise e -> e = MemoryError.
Proof.
  intros Hsize. unfold resize. cbn [fst snd].
  destruct ((width i =? size) && (height i =? size)).
  - destruct (can_allocate size size); [ done | by intros [= <-] ].
  - rewrite fits_c_int_range by lia.
    replace (size <? 1) with false by lia. cbn [negb andb orb].
    destruct (can_allocate size size); [ done | by intros [= <-] ].
Qed.

Lemma export_variant_raises (spec : num * Z) (images : list value)
      (w : World) (e : exn) :
  well_named spec = true ->
  export_variant spec (images, w) = Raise e -> is_argument_error e = false.
Proof.
  intros Hwn. apply well_named_inv in Hwn as (Hsize & _ & _).
  destruct spec as [base_size scale]. unfold export_variant.
  cbn [fst snd] in *. intros Hr.
  apply bind_raises in Hr as [Hr | (icon & _ & Hr)];
    [ by apply create_icon_1024_raises in Hr as -> | ].
  apply bind_raises in Hr as [Hr | (icon_resized & _ & Hr)];
    [ by apply resize_raises in Hr as -> | ].
  apply bind_raises in Hr as [Hr | (w' & _ & Hr)]; [ | done ].
  by apply write_file_raises in Hr.
Qed.

Lemma export_loop_raises (specs : list (num * Z)) (images : list value)
      (w : World) (e : exn) :
  forallb well_named specs = true ->
  export_loop specs (images, w) = Raise e -> is_argument_error e = false.
Proof.
  revert images w. induction specs as [ | spec specs IH ]; intros images w Hwn Hr;
    [ done | ].
  cbn [forallb] in Hwn. apply andb_prop in Hwn as [Hwn1 Hwn].
  cbn [export_loop] in Hr.
  apply bind_raises in Hr as [Hr | ([images' w'] & _ & Hr)].
  - by apply export_variant_raises in Hr.
  - by apply IH in Hr.
Qed.

(** X13: a run never ends in an invalid-argument error: the size 1024 and
    the fifteen variant sizes are valid arguments of [Image.new] and
    [resize], so whatever makes a run fail, it is not a ValueError or an
    OverflowError. *)
Theorem export_never_rejects_its_sizes (w : World) (e : exn) :
  main w = Raise e -> is_argument_error e = false.
Proof.
  unfold main. intros Hr.
  apply bind_raises in Hr as [Hr | (icon & _ & Hr)];
    [ by apply create_icon_1024_raises in Hr as -> | ].
  apply bind_raises in Hr as [Hr | (w1 & _ & Hr)];
    [ by apply write_file_raises in Hr | ].
  apply bind_raises in Hr as [Hr | (w3 & _ & Hr)];
    [ by apply makedirs_go_raises in Hr | ].
  apply bind_raises in Hr as [Hr | (st & _ & Hr)];
    [ apply export_loop_raises in Hr; [ done | apply ios_sizes_well_named ] | ].
  apply bind_raises in Hr as [Hr | (w5 & _ & Hr)]; [ | done ].
  by apply write_file_raises in Hr.
Qed.

End ExportErrors.

(** ** The further properties on concrete inputs *)

Lemma calls_stay_in_canvas_witness :
  is_ok (@create_icon_draw sample_rasterizer 64) = true
  /\ exists d, @create_icon_draw sample_rasterizer 64 = Ok d
               /\ forall c q, c ∈ calls d -> In q (call_coords c) ->
                              (0 <= q /\ q <= inject_Z 64)%Q.
Proof.
  split; [ vm_compute; reflexivity | ].
  apply (calls_stay_in_canvas 64). vm_compute; reflexivity.
Defined.

Lemma line_width_truncates_witness :
  is_ok (@create_icon_draw sample_rasterizer 42) = true
  /\ exists d, @create_icon_draw sample_rasterizer 42 = Ok d
               /\ forall xy fill lw, Line xy fill lw ∈ calls d ->
                    lw = 24 * 42 / 1024
                    /\ (42 < 43 -> lw = 0)
                    /\ (43 <= 42 -> 1 <= lw).
Proof.
  split; [ vm_compute; reflexivity | ].
  apply (line_width_truncates 42). vm_compute; reflexivity.
Defined.

Lemma inner_disk_within_outer_witness :
  is_ok (@create_icon_draw sample_rasterizer 64) = true
  /\ circles !! 0%nat = Some (320, 400, 80)
  /\ exists d outer inner,
       @create_icon_draw sample_rasterizer 64 = Ok d
       /\ calls d !! (7 + 0)%nat = Some (Ellipse outer accent)
       /\ calls d !! (13 + 0)%nat = Some (Ellipse inner background)
       /\ box_inside inner outer
       /\ concentric inner outer.
Proof.
  split; [ vm_compute; reflexivity | ]. split; [ reflexivity | ].
  apply (inner_disk_within_outer 64 0 (320, 400, 80));
    [ vm_compute; reflexivity | reflexivity ].
Defined.

Lemma pixel_by_layers_witness :
  is_ok (@create_icon_draw sample_rasterizer 64) = true
  /\ exists d, @create_icon_draw sample_rasterizer 64 = Ok d
               /\ @create_icon sample_rasterizer 64 = Ok (im d)
               /\ getpixel (im d) 20 25
                  = if existsb (fun c => @covered sample_rasterizer c 20 25) (filter is_inner (calls d))
                    then (15, 23, 42)
                    else if existsb (fun c => @covered sample_rasterizer c 20 25)
                                    (filter (fun c => is_line c || is_outer c) (calls d))
                         then (34, 211, 168)
                         else (15, 23, 42).
Proof.
  split; [ vm_compute; reflexivity | ].
  apply (pixel_by_layers 64 20 25). vm_compute; reflexivity.
Defined.

Lemma export_needs_app_store_witness :
  os.exists_ "app-store" empty_world = false
  /\ os.isdir primary_path empty_world = false
  /\ is_ok (@main sample_rasterizer empty_world) = false
  /\ (is_ok (@create_icon sample_rasterizer 1024) = true ->
      @main sample_rasterizer empty_world = Raise (FileNotFoundError primary_path)).
Proof.
  split; [ vm_compute; reflexivity | ]. split; [ vm_compute; reflexivity | ].
  apply (export_needs_app_store empty_world); vm_compute; reflexivity.
Defined.

Lemma export_success_condition_witness :
  is_ok (@main sample_rasterizer fresh_world) = true
  /\ os.isdir "app-store" fresh_world = true
  /\ os.isdir manifest_path fresh_world = false.
Proof.
  split; [ vm_compute; reflexivity | ].
  destruct (@export_success_condition sample_rasterizer fresh_world)
    as (Happ & _ & _ & _ & Hman); [ vm_compute; reflexivity | ].
  split; [ exact Happ | exact Hman ].
Defined.


Lemma rerun_changes_nothing_witness :
  @exportable sample_rasterizer fresh_world = true
  /\ exists w1 w2, @main sample_rasterizer fresh_world = Ok w1
                   /\ @main sample_rasterizer w1 = Ok w2
                   /\ files w2 = files w1 /\ dirs w2 = dirs w1.
Proof.
  split; [ vm_compute; reflexivity | ].
  apply (rerun_changes_nothing fresh_world). vm_compute; reflexivity.
Defined.

Lemma variants_come_from_1024_witness :
  @exportable sample_rasterizer fresh_world = true
  /\ exists w' icon,
       @main sample_rasterizer fresh_world = Ok w'
       /\ @create_icon sample_rasterizer 1024 = Ok icon
       /\ files w' !! primary_path = Some (PNG icon)
       /\ files w' !! variant_path (Int 1024) 1 = Some (PNG icon).
Proof.
  split; [ vm_compute; reflexivity | ].
  destruct (@variants_come_from_1024 sample_rasterizer fresh_world)
    as (w' & icon & Hw' & Hicon & Hprim & Hvar & _); [ vm_compute; reflexivity | ].
  exists w', icon. repeat split; assumption.
Defined.


Lemma variant_size_truncates_witness :
  is_binary64 (167 # 2) = true
  /\ is_binary64 (inject_Z 1) = true
  /\ is_binary64 ((167 # 2) * inject_Z 1) = true
  /\ (0 <= (167 # 2) * inject_Z 1)%Q
  /\ variant_size (Float (167 # 2)) 1 = Qfloor ((167 # 2) * inject_Z 1)%Q
  /\ variant_size (Float (167 # 2)) 1 <= round_half_up ((167 # 2) * inject_Z 1)%Q
  /\ variant_size (Float (167 # 2)) 1 = 83
  /\ round_half_up ((167 # 2) * inject_Z 1)%Q = 84.
Proof.
  do 3 (split; [ vm_compute; reflexivity | ]).
  split; [ unfold Qle; simpl; lia | ].
  apply (variant_size_truncates (167 # 2) 1);
    [ vm_compute; reflexivity | vm_compute; reflexivity | vm_compute; reflexivity
      | unfold Qle; simpl; lia ].
Defined.

Lemma idiom_respects_equality_witness :
  eqb (Float (40 # 2)) (Int 20) = true
  /\ idiom_of (Float (40 # 2)) = idiom_of (Int 20).
Proof.
  split; [ reflexivity | ].
  apply (idiom_respects_equality (Float (40 # 2)) (Int 20)). reflexivity.
Defined.

Lemma export_never_rejects_its_sizes_witness :
  @main sample_rasterizer empty_world = Raise (FileNotFoundError primary_path)
  /\ is_argument_error (FileNotFoundError primary_path) = false.
Proof.
  assert (Hrun : @main sample_rasterizer empty_world
                 = Raise (FileNotFoundError primary_path))
    by (vm_compute; reflexivity).
  split; [ exact Hrun | ].
  exact (export_never_rejects_its_sizes empty_world _ Hrun).
Defined.
